(** * nano_pk bridge: a shallow embedding of [app.py] and its properties

    The bridge reads telemetry lines of an ETA nanoPK boiler over telnet,
    decodes them ([parse_pm_line]), maps channel 0 through [ZK_STATUS_MAP],
    filters unchanged values ([almost_equal]) and republishes the rest on
    MQTT.  This file embeds those functions of [app.py] and states the
    properties of the design document about them.

    Layout: Python text and numbers; the constants and the channel table;
    the outside world (bus, telnet link, clock, log) as a script of
    outcomes and a trace of events, with a state and exception monad over
    it; the functions of the bridge; the vocabulary of the properties;
    the properties, function by function.  The sections from "More about
    [almost_equal]" on hold properties that the code shows beyond the
    design document: topics, the lines of the loop, what a round
    publishes, the end of the loop, discovery that fails, status codes,
    the decoder and retain flags. *)

From Stdlib Require Import ZArith NArith Lia Bool List Ascii String.
From Stdlib Require Import Floats.SpecFloat.
From stdpp Require Import base option list gmap.

Local Open Scope Z_scope.

(* ===================================================================== *)
(** * Python text *)
(* ===================================================================== *)

(** A Python [str] is a sequence of Unicode code points. *)
Definition char := N.
Definition str := list char.

(** String literals of this file are written as Rocq strings, whose
    characters are the bytes of the UTF-8 encoding; [lit] decodes them. *)
Fixpoint utf8_decode (bs : list N) : str :=
  match bs with
  | [] => []
  | b :: rest =>
      if (b <? 128)%N then b :: utf8_decode rest
      else if (b <? 224)%N then
        match rest with
        | c1 :: r => ((b - 192) * 64 + (c1 - 128))%N :: utf8_decode r
        | _ => []
        end
      else if (b <? 240)%N then
        match rest with
        | c1 :: c2 :: r =>
            ((b - 224) * 4096 + (c1 - 128) * 64 + (c2 - 128))%N :: utf8_decode r
        | _ => []
        end
      else
        match rest with
        | c1 :: c2 :: c3 :: r =>
            ((b - 240) * 262144 + (c1 - 128) * 4096 + (c2 - 128) * 64 + (c3 - 128))%N
              :: utf8_decode r
        | _ => []
        end
  end.

Definition lit (s : string) : str :=
  utf8_decode (List.map N_of_ascii (list_ascii_of_string s)).

(** [a == b] for strings. *)
Fixpoint str_eqb (a b : str) : bool :=
  match a, b with
  | [], [] => true
  | x :: a', y :: b' => (x =? y)%N && str_eqb a' b'
  | _, _ => false
  end.

(** [s.startswith(p)] *)
Fixpoint startswith (p s : str) : bool :=
  match p, s with
  | [], _ => true
  | _ :: _, [] => false
  | a :: p', b :: s' => (a =? b)%N && startswith p' s'
  end.

(** [p in s] for strings: [p] occurs as a contiguous run of [s]. *)
Fixpoint str_contains (p s : str) : bool :=
  startswith p s ||
  match s with
  | [] => false
  | _ :: s' => str_contains p s'
  end.

(** The characters [str.strip()] and [str.split()] treat as white space
    (CPython's [Py_UNICODE_ISSPACE]). *)
Definition is_space (c : char) : bool :=
  ((9 <=? c) && (c <=? 13) || (28 <=? c) && (c <=? 32) ||
   (c =? 133) || (c =? 160) || (c =? 5760) ||
   (8192 <=? c) && (c <=? 8202) ||
   (c =? 8232) || (c =? 8233) || (c =? 8239) || (c =? 8287) || (c =? 12288))%N.

Fixpoint lstrip (s : str) : str :=
  match s with
  | c :: s' => if is_space c then lstrip s' else s
  | [] => []
  end.

Definition rstrip (s : str) : str := rev (lstrip (rev s)).

(** [s.strip()] *)
Definition strip (s : str) : str := rstrip (lstrip s).

(** [s.split()] without a separator: maximal runs of non-space
    characters, in order.  [cur] is the run being read, reversed. *)
Fixpoint split_from (cur : str) (s : str) : list str :=
  match s with
  | [] => match cur with [] => [] | _ => [rev cur] end
  | c :: s' =>
      if is_space c then
        match cur with
        | [] => split_from [] s'
        | _ => rev cur :: split_from [] s'
        end
      else split_from (c :: cur) s'
  end.

Definition split (s : str) : list str := split_from [] s.

(* ===================================================================== *)
(** * Python numbers *)
(* ===================================================================== *)

(** A Python [float] is an IEEE 754 binary64 number. *)
Definition float := spec_float.
Definition prec := 53.
Definition emax := 1024.

Definition fsub : float -> float -> float := SFsub prec emax.
Definition fabs : float -> float := SFabs.
Definition fltb : float -> float -> bool := SFltb.
Definition fleb : float -> float -> bool := SFleb.

Definition is_finite (f : float) : bool :=
  match f with
  | S754_zero _ | S754_finite _ _ _ => true
  | _ => false
  end.

(** The values that occur in a decoded line, in the cache and as payloads. *)
Inductive PyVal :=
  | VInt (z : Z)
  | VFloat (f : float)
  | VStr (s : str).

Definition is_float (v : PyVal) : bool :=
  match v with VFloat _ => true | _ => false end.

(** ** Text to number: the built-ins [int(v)] and [float(v)]

    [None] stands for [ValueError].  The grammar is the documented one for
    ASCII input: an optional sign, then digits in which single underscores
    may separate digits.  The digits of other scripts, which the built-ins
    read as well, and the interpreter's limit on the number of digits of
    an [int] are left out: no property below depends on them. *)

Definition digit (c : char) : option Z :=
  if ((48 <=? c) && (c <=? 57))%N then Some (Z.of_N c - 48) else None.

(** Reads the rest of a digit part after [n] digits of value [v]. *)
Fixpoint scan_more (v : Z) (n : nat) (s : str) : Z * nat * str :=
  match s with
  | [] => (v, n, [])
  | c :: s' =>
      match digit c with
      | Some d => scan_more (10 * v + d) (S n) s'
      | None =>
          if (c =? 95)%N then
            match s' with
            | c2 :: s'' =>
                match digit c2 with
                | Some d => scan_more (10 * v + d) (S n) s''
                | None => (v, n, s)
                end
            | [] => (v, n, s)
            end
          else (v, n, s)
      end
  end.

(** A digit part: value, number of digits, rest of the text. *)
Definition scan_digits (s : str) : option (Z * nat * str) :=
  match s with
  | c :: s' =>
      match digit c with
      | Some d => Some (scan_more d 1 s')
      | None => None
      end
  | [] => None
  end.

(** An optional sign: [true] for minus. *)
Definition scan_sign (s : str) : bool * str :=
  match s with
  | c :: s' =>
      if (c =? 45)%N then (true, s')
      else if (c =? 43)%N then (false, s')
      else (false, s)
  | [] => (false, [])
  end.

(** [int(v)] for a string [v]. *)
Definition py_int (v : str) : option Z :=
  let '(neg, s) := scan_sign (strip v) in
  match scan_digits s with
  | Some (n, _, []) => Some (if neg then - n else n)
  | _ => None
  end.

(** The binary64 number nearest to [m * 10^e] (ties to even), with sign
    [neg]: the result of a correctly rounded decimal conversion. *)
Definition float_of_decimal (neg : bool) (m e : Z) : float :=
  match m with
  | Zpos p =>
      if 0 <=? e then binary_round prec emax neg (p * Z.to_pos (10 ^ e))%positive 0
      else
        let '(q, e', l) := SFdiv_core_binary prec emax m 0 (10 ^ (- e)) 0 in
        binary_round_aux prec emax neg q e' l
  | _ => S754_zero neg
  end.

Definition lower (c : char) : char :=
  if ((65 <=? c) && (c <=? 90))%N then (c + 32)%N else c.

(** The exponent part of a float literal, which may be absent. *)
Definition scan_exponent (s : str) : option (Z * str) :=
  match s with
  | c :: s' =>
      if (lower c =? 101)%N then
        let '(neg, s1) := scan_sign s' in
        match scan_digits s1 with
        | Some (x, _, r) => Some (if neg then - x else x, r)
        | None => None
        end
      else Some (0, s)
  | [] => Some (0, [])
  end.

(** Integer part, optional point and fraction: mantissa, number of
    fraction digits, rest of the text. *)
Definition scan_number (s : str) : option (Z * nat * str) :=
  match scan_digits s with
  | Some (ip, _, r) =>
      match r with
      | c :: r' =>
          if (c =? 46)%N then
            match scan_digits r' with
            | Some _ => Some (scan_more ip 0 r')
            | None => Some (ip, 0%nat, r')
            end
          else Some (ip, 0%nat, r)
      | [] => Some (ip, 0%nat, [])
      end
  | None =>
      match s with
      | c :: r' =>
          if (c =? 46)%N then
            match scan_digits r' with
            | Some _ => Some (scan_more 0 0 r')
            | None => None
            end
          else None
      | [] => None
      end
  end.

(** [float(v)] for a string [v]. *)
Definition py_float (v : str) : option float :=
  let '(neg, s) := scan_sign (strip v) in
  let word := List.map lower s in
  if str_eqb word (lit "inf") || str_eqb word (lit "infinity")
  then Some (S754_infinity neg)
  else if str_eqb word (lit "nan") then Some S754_nan
  else
    match scan_number s with
    | Some (m, nfrac, r) =>
        match scan_exponent r with
        | Some (x, []) => Some (float_of_decimal neg m (x - Z.of_nat nfrac))
        | _ => None
        end
    | None => None
    end.

(** [float(z)] for an integer [z]: nearest float, [OverflowError]
    ([None]) beyond the largest one. *)
Definition float_of_int (z : Z) : option float :=
  match binary_normalize prec emax z 0 false with
  | S754_infinity _ => None
  | f => Some f
  end.

(** [float(a)] for a value: [None] when the conversion raises. *)
Definition to_float (a : PyVal) : option float :=
  match a with
  | VInt z => float_of_int z
  | VFloat f => Some f
  | VStr s => py_float s
  end.

(** [a == b] where neither side is a float. *)
Definition py_eqb (a b : PyVal) : bool :=
  match a, b with
  | VInt x, VInt y => x =? y
  | VStr s, VStr t => str_eqb s t
  | _, _ => false
  end.

(* ===================================================================== *)
(** * The Value Decoder *)
(* ===================================================================== *)

Definition marker : str := lit "pm".

(** The loop body of [parse_pm_line]:
    [float(v) if "." in v else int(v)], [None] on [ValueError]. *)
Definition parse_token (v : str) : option PyVal :=
  if str_contains (lit ".") v then VFloat <$> py_float v
  else VInt <$> py_int v.

(** [parse_pm_line(line)]; the outer [None] is Python's [None]. *)
Definition parse_pm_line (line : str) : option (list (option PyVal)) :=
  if bool_decide (line = []) || negb (startswith marker line) then None
  else
    let parts := split (strip line) in
    if (length parts <? 2)%nat then None
    else Some (List.map parse_token (tail parts)).

(* ===================================================================== *)
(** * Constants and the channel table *)
(* ===================================================================== *)

(** A [dict] with integer keys, in insertion order. *)
Definition IntDict (V : Type) := list (Z * V).

(** [f == k] for a float [f] and an integer [k]: Python compares the two
    exactly, without rounding [k]. *)
Definition float_eq_int (f : float) (k : Z) : bool :=
  match f with
  | S754_zero _ => k =? 0
  | S754_finite s m e =>
      let mz := if s then Z.neg m else Z.pos m in
      if 0 <=? e then k =? mz * 2 ^ e else k * 2 ^ (- e) =? mz
  | _ => false
  end.

(** Does the integer key [k] of a dict match the looked-up value [v]?
    Equal numbers hash alike, so a float finds the integer key it equals. *)
Definition key_matches (v : PyVal) (k : Z) : bool :=
  match v with
  | VInt z => k =? z
  | VFloat f => float_eq_int f k
  | VStr _ => false
  end.

Definition dict_find {V} (d : IntDict V) (v : PyVal) : option V :=
  snd <$> List.find (fun kv => key_matches v (fst kv)) d.

(** [d.get(v, dflt)] *)
Definition dict_get {V} (d : IntDict V) (v : PyVal) (dflt : V) : V :=
  default dflt (dict_find d v).

Definition ZK_STATUS_MAP : IntDict str :=
  [ (0, lit "Unbekannt"); (1, lit "Aus"); (2, lit "Startvorbereitung");
    (3, lit "Kessel Start"); (4, lit "Zündüberwachung"); (5, lit "Zündung");
    (6, lit "Übergang LB"); (7, lit "Leistungsbrand");
    (8, lit "Gluterhaltung"); (9, lit "Warten auf EA");
    (10, lit "Entaschung"); (11, lit "-"); (12, lit "Putzen") ].

(** An entry of [channel_map] (module [channel_map_with_aliases]): a dict
    with the key ["alias"] and the optional keys ["mqtt_name"], ["label"]
    and ["unit"]. *)
Record Entry := {
  e_alias : str;
  e_mqtt_name : option str;
  e_label : option str;
  e_unit : option str;
}.

(** [entry.get("mqtt_name", entry["alias"])] and its siblings. *)
Definition entry_mqtt_name (e : Entry) : str := default (e_alias e) (e_mqtt_name e).
Definition entry_label (e : Entry) : str := default (e_alias e) (e_label e).
Definition entry_unit (e : Entry) : str := default [] (e_unit e).

Definition get_device_class (name unit : str) : option str :=
  if str_eqb unit (lit "°C") then Some (lit "temperature")
  else if str_eqb unit (lit "%") then
    if str_contains (lit "Feuchte") name || str_contains (lit "Luftfeuchte") name
    then Some (lit "humidity") else None
  else if str_eqb unit (lit "bar") then Some (lit "pressure")
  else if str_contains (lit "Leistung") name then Some (lit "power")
  else None.

(* ===================================================================== *)
(** * The outside world: bus, telnet link, clock and log *)
(* ===================================================================== *)

(** A JSON document before [json.dumps]; objects keep insertion order. *)
#[local] Unset Elimination Schemes.
Inductive Json :=
  | JStr (s : str)
  | JArr (items : list Json)
  | JObj (fields : list (str * Json)).
#[local] Set Elimination Schemes.

(** [payload[key]] of a JSON object, [None] when the key is absent. *)
Definition json_field (key : str) (j : Json) : option Json :=
  match j with
  | JObj fields => snd <$> List.find (fun kv => str_eqb (fst kv) key) fields
  | _ => None
  end.

Inductive Payload :=
  | PVal (v : PyVal)
  | PJson (j : Json).   (* the text [json.dumps(j)] *)

(** The call site of a [publish]; it labels the event and is not sent. *)
Inductive Site :=
  | SiteChannel (idx : nat)   (* line 226 *)
  | SiteStatus                (* lines 239, 247, 260 *)
  | SiteDiscovery.            (* lines 142, 157 *)

(** What a call of paho's [publish] does: it returns a message info whose
    [rc] reports success or an error code, or it raises.  [app.py] never
    looks at what is returned. *)
Inductive PubOutcome := PubOk | PubFailed | PubRaises.

Inductive Level := INFO | WARNING | ERROR.

(** The log statements of [app.py]. *)
Inductive LogMsg :=
  | LogDiscoverySent (label : str)
  | LogConnectivitySent
  | LogTelnetConnecting
  | LogTelnetConnected
  | LogTelnetRetry (delay : Z)
  | LogLoopError
  | LogStopSignal
  | LogCleanupDone.

Definition Handle := nat.

Inductive Event :=
  | EvPublish (site : Site) (topic : str) (payload : Payload) (retain : bool)
              (outcome : PubOutcome)
  | EvRead
  | EvConnect (ok : bool)          (* [telnetlib.Telnet(HOST, PORT, timeout=10)] *)
  | EvClose (h : Handle)
  | EvSleep (secs : Z)
  | EvLog (lvl : Level) (msg : LogMsg)
  | EvLoopStop                     (* [mqtt.loop_stop(); mqtt.disconnect()] *)
  .

Inductive Exn := PublishError | ReadError | ConnectError | CloseError | KeyError.

(** What [read_until(b"\n", timeout=5)] does in one iteration: it raises,
    returns no bytes, or returns bytes; [ReadData] carries their text as
    decoded by [raw.decode("utf-8", errors="ignore")]. *)
Inductive ReadOutcome := ReadRaises | ReadEmpty | ReadData (text : str).

(** The fields of the [Bridge] object, and the world around it: the
    events so far and what the next calls of [publish], [Telnet(...)] and
    [close] will do.  An exhausted [w_pubs] or [w_closes] means that the
    remaining calls succeed; an exhausted [w_conns] means that the
    telemetry source has not answered yet. *)
Record State := {
  last_values : gmap nat PyVal;
  running : bool;
  tn : option Handle;
  w_trace : list Event;
  w_pubs : list PubOutcome;
  w_conns : list bool;
  w_closes : list bool;
  w_handles : nat;
}.

Definition with_last_values (f : gmap nat PyVal -> gmap nat PyVal) (st : State) : State :=
  {| last_values := f (last_values st); running := running st; tn := tn st;
     w_trace := w_trace st; w_pubs := w_pubs st; w_conns := w_conns st;
     w_closes := w_closes st; w_handles := w_handles st |}.

Definition with_running (b : bool) (st : State) : State :=
  {| last_values := last_values st; running := b; tn := tn st;
     w_trace := w_trace st; w_pubs := w_pubs st; w_conns := w_conns st;
     w_closes := w_closes st; w_handles := w_handles st |}.

Definition with_tn (h : option Handle) (st : State) : State :=
  {| last_values := last_values st; running := running st; tn := h;
     w_trace := w_trace st; w_pubs := w_pubs st; w_conns := w_conns st;
     w_closes := w_closes st; w_handles := w_handles st |}.

Definition with_trace (f : list Event -> list Event) (st : State) : State :=
  {| last_values := last_values st; running := running st; tn := tn st;
     w_trace := f (w_trace st); w_pubs := w_pubs st; w_conns := w_conns st;
     w_closes := w_closes st; w_handles := w_handles st |}.

Definition with_pubs (l : list PubOutcome) (st : State) : State :=
  {| last_values := last_values st; running := running st; tn := tn st;
     w_trace := w_trace st; w_pubs := l; w_conns := w_conns st;
     w_closes := w_closes st; w_handles := w_handles st |}.

Definition with_conns (l : list bool) (st : State) : State :=
  {| last_values := last_values st; running := running st; tn := tn st;
     w_trace := w_trace st; w_pubs := w_pubs st; w_conns := l;
     w_closes := w_closes st; w_handles := w_handles st |}.

Definition with_closes (l : list bool) (st : State) : State :=
  {| last_values := last_values st; running := running st; tn := tn st;
     w_trace := w_trace st; w_pubs := w_pubs st; w_conns := w_conns st;
     w_closes := l; w_handles := w_handles st |}.

Definition with_handles (n : nat) (st : State) : State :=
  {| last_values := last_values st; running := running st; tn := tn st;
     w_trace := w_trace st; w_pubs := w_pubs st; w_conns := w_conns st;
     w_closes := w_closes st; w_handles := n |}.

(** [Bridge.__init__] in a world where nothing has happened yet and
    every call succeeds; the telemetry source has not answered. *)
Definition Bridge_init : State :=
  {| last_values := ∅; running := true; tn := None;
     w_trace := []; w_pubs := []; w_conns := []; w_closes := [];
     w_handles := 0 |}.

(** ** A state and exception monad

    [Pending] is a call that has not returned: the world's script ended
    while the call was still waiting. *)
Inductive Res (A : Type) :=
  | Ok (a : A)
  | Raise (e : Exn)
  | Pending.
Arguments Ok {A} a.
Arguments Raise {A} e.
Arguments Pending {A}.

Definition M (A : Type) : Type := State -> Res A * State.

Definition ret {A} (a : A) : M A := fun st => (Ok a, st).

Definition bind {A B} (m : M A) (k : A -> M B) : M B :=
  fun st =>
    match m st with
    | (Ok a, st') => k a st'
    | (Raise e, st') => (Raise e, st')
    | (Pending, st') => (Pending, st')
    end.

Definition raise {A} (e : Exn) : M A := fun st => (Raise e, st).

(** [try: m except Exception as e: h e] *)
Definition try_except {A} (m : M A) (h : Exn -> M A) : M A :=
  fun st =>
    match m st with
    | (Raise e, st') => h e st'
    | r => r
    end.

(** [try: m except Exception: pass] *)
Definition try_pass (m : M unit) : M unit := try_except m (fun _ => ret tt).

#[global] Instance M_ret : MRet M := @ret.
#[global] Instance M_bind : MBind M := fun A B k m => bind m k.

Definition pending {A} : M A := fun st => (Pending, st).

Definition modify (f : State -> State) : M unit := fun st => (Ok tt, f st).

Definition emit (e : Event) : M unit := modify (with_trace (fun t => t ++ [e])).

Definition log (lvl : Level) (msg : LogMsg) : M unit := emit (EvLog lvl msg).

Definition sleep (secs : Z) : M unit := emit (EvSleep secs).

(** [mqtt_client.publish(topic, payload, qos=QOS, retain=retain)] *)
Definition publish (site : Site) (topic : str) (payload : Payload) (retain : bool)
  : M unit :=
  fun st =>
    let o := List.hd PubOk (w_pubs st) in
    let st' := with_pubs (List.tl (w_pubs st))
                 (with_trace (fun t => t ++ [EvPublish site topic payload retain o]) st) in
    match o with
    | PubRaises => (Raise PublishError, st')
    | _ => (Ok tt, st')
    end.

(** [telnetlib.Telnet(HOST, PORT, timeout=10)] *)
Definition telnet_open : M Handle :=
  fun st =>
    match w_conns st with
    | [] => (Pending, st)
    | ok :: rest =>
        let st' := with_conns rest (with_trace (fun t => t ++ [EvConnect ok]) st) in
        if ok then (Ok (w_handles st), with_handles (S (w_handles st)) st')
        else (Raise ConnectError, st')
    end.

(** [tn.close()] *)
Definition telnet_close (h : Handle) : M unit :=
  fun st =>
    let bad := List.hd false (w_closes st) in
    let st' := with_closes (List.tl (w_closes st))
                 (with_trace (fun t => t ++ [EvClose h]) st) in
    if bad then (Raise CloseError, st') else (Ok tt, st').

(** [self.tn.read_until(b"\n", timeout=5)]: [None] is [b""]. *)
Definition read_until (r : ReadOutcome) : M (option str) :=
  emit EvRead;;
  match r with
  | ReadRaises => raise ReadError
  | ReadEmpty => ret None
  | ReadData text => ret (Some text)
  end.

(* ===================================================================== *)
(** * The bridge *)
(* ===================================================================== *)

Section Bridge.

(** The table of module [channel_map_with_aliases] and the settings
    read from the environment. *)
Variable channel_map : IntDict Entry.
Variable MQTT_BASE : str.
Variable FLOAT_EPS : float.
Variable MQTT_RETAIN : bool.

Definition MQTT_STATUS : str := MQTT_BASE ++ lit "/status".

Definition almost_equal (a b : PyVal) : bool :=
  if is_float a || is_float b then
    match to_float a, to_float b with
    | Some x, Some y => fltb (fabs (fsub x y)) FLOAT_EPS
    | _, _ => false
    end
  else py_eqb a b.

(** ** Discovery *)

Definition device : Json :=
  JObj [ (lit "identifiers", JArr [JStr (lit "nano_pk")]);
         (lit "manufacturer", JStr (lit "ETA"));
         (lit "model", JStr (lit "nanoPK Telnet"));
         (lit "name", JStr (lit "ETA nanoPK")) ].

Definition availability : Json :=
  JArr [ JObj [ (lit "topic", JStr MQTT_STATUS);
                (lit "payload_available", JStr (lit "online"));
                (lit "payload_not_available", JStr (lit "offline")) ] ].

(** The [payload] dict of one round of the loop of [send_discovery]. *)
Definition sensor_payload (idx : Z) (entry : Entry) : Json :=
  let mqtt_name := entry_mqtt_name entry in
  let label := entry_label entry in
  let unit := entry_unit entry in
  let state_topic := MQTT_BASE ++ lit "/" ++ mqtt_name in
  let payload :=
    [ (lit "name", JStr label);
      (lit "state_topic", JStr state_topic);
      (lit "unique_id", JStr (lit "nano_pk_" ++ mqtt_name));
      (lit "device", device);
      (lit "availability", availability) ] in
  if negb (idx =? 0) then
    let payload := payload ++ [ (lit "unit_of_measurement", JStr unit) ] in
    let payload := payload ++ [ (lit "state_class", JStr (lit "measurement")) ] in
    match get_device_class label unit with
    | Some dc => JObj (payload ++ [ (lit "device_class", JStr dc) ])
    | None => JObj payload
    end
  else JObj payload.

Definition sensor_config_topic (entry : Entry) : str :=
  lit "homeassistant/sensor/nano_pk_" ++ entry_mqtt_name entry ++ lit "/config".

Definition connectivity_payload : Json :=
  JObj [ (lit "name", JStr (lit "NanoPK Status"));
         (lit "state_topic", JStr MQTT_STATUS);
         (lit "payload_on", JStr (lit "online"));
         (lit "payload_off", JStr (lit "offline"));
         (lit "device_class", JStr (lit "connectivity"));
         (lit "unique_id", JStr (lit "nano_pk_status"));
         (lit "device", device);
         (lit "availability", availability) ].

Definition connectivity_config_topic : str :=
  lit "homeassistant/binary_sensor/nano_pk_status/config".

(** The loop [for idx, entry in channel_map.items()]. *)
Fixpoint send_sensors (items : IntDict Entry) : M unit :=
  match items with
  | [] => mret tt
  | (idx, entry) :: rest =>
      publish SiteDiscovery (sensor_config_topic entry)
              (PJson (sensor_payload idx entry)) true;;
      log INFO (LogDiscoverySent (entry_label entry));;
      send_sensors rest
  end.

Definition send_discovery : M unit :=
  send_sensors channel_map;;
  publish SiteDiscovery connectivity_config_topic (PJson connectivity_payload) true;;
  log INFO LogConnectivitySent.

(** ** The telnet link *)

(** The loop of [connect_telnet_with_backoff]; every round takes one
    answer from [w_conns]. *)
Fixpoint connect_loop (fuel : nat) (delay : Z) : M Handle :=
  match fuel with
  | O => pending
  | S fuel' =>
      try_except
        (log INFO LogTelnetConnecting;;
         h ← telnet_open;
         log INFO LogTelnetConnected;;
         mret h)
        (fun _ =>
           log WARNING (LogTelnetRetry delay);;
           sleep delay;;
           connect_loop fuel' (Z.min (delay * 2) 30))
  end.

Definition connect_telnet_with_backoff : M Handle :=
  fun st => connect_loop (S (length (w_conns st))) 1 st.

(** ** The read loop *)

(** [idx in channel_map] and [channel_map[idx]] *)
Definition channel_lookup (idx : nat) : option Entry :=
  dict_find channel_map (VInt (Z.of_nat idx)).

(** [d[k]], which raises [KeyError] for a missing key. *)
Definition dict_getitem {V} (d : IntDict V) (k : Z) : M V :=
  match dict_find d (VInt k) with
  | Some v => mret v
  | None => raise KeyError
  end.

(** Lines 216-219: the payload of channel [idx] for the value [val]. *)
Definition translate (idx : nat) (val : PyVal) : M PyVal :=
  if (idx =? 0)%nat then
    dflt ← dict_getitem ZK_STATUS_MAP 0;
    mret (VStr (dict_get ZK_STATUS_MAP val dflt))
  else mret val.

Definition set_last (idx : nat) (payload : PyVal) : M unit :=
  modify (with_last_values (fun m => <[idx := payload]> m)).

Definition get_last (idx : nat) : M (option PyVal) :=
  fun st => (Ok (last_values st !! idx), st).

(** The body of [for idx, val in enumerate(values)]. *)
Definition publish_value (idx : nat) (val : option PyVal) : M unit :=
  match channel_lookup idx, val with
  | Some entry, Some v =>
      let topic := MQTT_BASE ++ lit "/" ++ entry_mqtt_name entry in
      payload ← translate idx v;
      last ← get_last idx;
      if match last with
         | Some l => almost_equal l payload
         | None => false
         end
      then mret tt
      else
        publish (SiteChannel idx) topic (PVal payload) MQTT_RETAIN;;
        set_last idx payload
  | _, _ => mret tt
  end.

Fixpoint process_values (idx : nat) (values : list (option PyVal)) : M unit :=
  match values with
  | [] => mret tt
  | val :: rest => publish_value idx val;; process_values (S idx) rest
  end.

(** Lines 196-227: the [try] block of one round of the loop. *)
Definition read_and_publish (r : ReadOutcome) : M unit :=
  raw ← read_until r;
  match raw with
  | None => mret tt
  | Some text =>
      let line := strip text in
      match line with
      | [] => mret tt
      | _ =>
          match parse_pm_line line with
          | None | Some [] => mret tt
          | Some values => process_values 0 values
          end
      end
  end.

Definition close_tn : M unit :=
  fun st =>
    match tn st with
    | Some h => telnet_close h st
    | None => (Ok tt, st)
    end.

(** Lines 229-249: the [except Exception] block. *)
Definition reconnect : M unit :=
  log ERROR LogLoopError;;
  try_pass close_tn;;
  try_pass (publish SiteStatus MQTT_STATUS (PVal (VStr (lit "offline"))) true);;
  sleep 2;;
  h ← connect_telnet_with_backoff;
  modify (with_tn (Some h));;
  try_pass (publish SiteStatus MQTT_STATUS (PVal (VStr (lit "online"))) true).

(** One round of [while self.running]. *)
Definition loop_body (r : ReadOutcome) : M unit :=
  try_except (read_and_publish r) (fun _ => reconnect).

Definition stop : M unit :=
  log INFO LogStopSignal;;
  modify (with_running false).

Definition cleanup : M unit :=
  try_pass (publish SiteStatus MQTT_STATUS (PVal (VStr (lit "offline"))) true);;
  try_pass close_tn;;
  try_pass (emit EvLoopStop);;
  log INFO LogCleanupDone.

(** What happens to the loop: a stop signal, handled between two
    rounds, or the outcome of the next read. *)
Inductive LoopInput := Signal | Read (r : ReadOutcome).

(** Lines 194-251 over a script of inputs; the loop is [Pending] when
    the script ends while the bridge is still running. *)
Fixpoint run_loop (script : list LoopInput) : M unit :=
  fun st =>
    if running st then
      match script with
      | [] => (Pending, st)
      | Signal :: rest => (stop;; run_loop rest) st
      | Read r :: rest => (loop_body r;; run_loop rest) st
      end
    else cleanup st.

End Bridge.

(* ===================================================================== *)
(** * Vocabulary of the properties *)
(* ===================================================================== *)

(** ** Numbers of the examples

    A finite binary64 number is [S754_finite sign m e], the number
    [m * 2^e] with a mantissa [m] of 53 bits: 22.5 is
    [6333186975989760 * 2^-48]. *)
Definition f_0_001 : float := S754_finite false 4611686018427388 (-62).
Definition f_2_1 : float := S754_finite false 4728779608739021 (-51).
Definition f_3_0 : float := S754_finite false 6755399441055744 (-51).
Definition f_3_5 : float := S754_finite false 7881299347898368 (-51).
Definition f_13_0 : float := S754_finite false 7318349394477056 (-49).
Definition f_22_5 : float := S754_finite false 6333186975989760 (-48).
Definition f_22_5005 : float := S754_finite false 6333327713478115 (-48).
Definition f_22_502 : float := S754_finite false 6333749925943181 (-48).
Definition f_45_0 : float := S754_finite false 6333186975989760 (-47).

(** ** Text *)

(** A run of white space. *)
Definition all_space (w : str) : Prop := Forall (fun c => is_space c = true) w.

(** A token is not empty and holds no white space. *)
Definition is_token (t : str) : Prop :=
  t <> [] /\ Forall (fun c => is_space c = false) t.

(** ** Channel 0 *)

(** The label of code 0, the default of the lookup. *)
Definition Unbekannt : str := lit "Unbekannt".

(** ** The telnet link *)

(** The delay slept after failure number [n + 1] in a row. *)
Definition backoff_delay (n : nat) : Z := Z.min (2 ^ Z.of_nat n) 30.

Definition sleeps_of (t : list Event) : list Z :=
  omap (fun e => match e with EvSleep d => Some d | _ => None end) t.

Definition attempts_of (t : list Event) : list bool :=
  omap (fun e => match e with EvConnect ok => Some ok | _ => None end) t.

(** The events of [n] failed rounds of the loop that start with [delay]. *)
Fixpoint failed_rounds (n : nat) (delay : Z) : list Event :=
  match n with
  | O => []
  | S n' =>
      [EvLog INFO LogTelnetConnecting; EvConnect false;
       EvLog WARNING (LogTelnetRetry delay); EvSleep delay]
      ++ failed_rounds n' (Z.min (delay * 2) 30)
  end.

Definition connected_round : list Event :=
  [EvLog INFO LogTelnetConnecting; EvConnect true; EvLog INFO LogTelnetConnected].

(** ** Discovery *)


(** The calls of [publish] among some events, without their outcomes. *)
Definition publishes_of (t : list Event) : list (Site * str * Payload * bool) :=
  omap (fun e => match e with
                 | EvPublish site topic payload retain _ =>
                     Some (site, topic, payload, retain)
                 | _ => None
                 end) t.

(** No call of [publish] in the script raises. *)
Definition no_raise (pubs : list PubOutcome) : Prop :=
  Forall (fun o => o <> PubRaises) pubs.


(** The calls of [publish] that [send_discovery] makes. *)
Definition sensor_message (base : str) (item : Z * Entry) : Site * str * Payload * bool :=
  (SiteDiscovery, sensor_config_topic (snd item),
   PJson (sensor_payload base (fst item) (snd item)), true).

Definition connectivity_message (base : str) : Site * str * Payload * bool :=
  (SiteDiscovery, connectivity_config_topic, PJson (connectivity_payload base), true).


(** A channel table for the examples. *)
Definition example_channel_map : IntDict Entry :=
  [ (0, {| e_alias := lit "status"; e_mqtt_name := None;
           e_label := Some (lit "Kesselstatus"); e_unit := None |});
    (1, {| e_alias := lit "kessel"; e_mqtt_name := Some (lit "kessel_temp");
           e_label := Some (lit "Kesseltemperatur"); e_unit := Some (lit "°C") |});
    (2, {| e_alias := lit "druck"; e_mqtt_name := None;
           e_label := Some (lit "Druck"); e_unit := Some (lit "bar") |});
    (3, {| e_alias := lit "leistung"; e_mqtt_name := None;
           e_label := Some (lit "Leistung Kessel"); e_unit := Some (lit "%") |}) ].

(** ** The read loop *)

Section Vocabulary.

Variable channel_map : IntDict Entry.
Variable MQTT_BASE : str.
Variable FLOAT_EPS : float.
Variable MQTT_RETAIN : bool.

(** The payload of lines 216-219 as a value. *)
Definition channel_payload (idx : nat) (v : PyVal) : PyVal :=
  if (idx =? 0)%nat then VStr (dict_get ZK_STATUS_MAP v Unbekannt) else v.

(** The topic of line 214. *)
Definition channel_topic (entry : Entry) : str :=
  MQTT_BASE ++ lit "/" ++ entry_mqtt_name entry.

(** The test of lines 221-223 on a cache: is [payload] held back? *)
Definition unchanged (cache : gmap nat PyVal) (idx : nat) (payload : PyVal) : bool :=
  match cache !! idx with
  | Some l => almost_equal FLOAT_EPS l payload
  | None => false
  end.

(** The event of line 226 in state [st]. *)
Definition value_event (idx : nat) (entry : Entry) (payload : PyVal) (st : State) : Event :=
  EvPublish (SiteChannel idx) (channel_topic entry) (PVal payload) MQTT_RETAIN
    (List.hd PubOk (w_pubs st)).

(** The state after the call of line 226. *)
Definition after_publish (idx : nat) (entry : Entry) (payload : PyVal) (st : State) : State :=
  with_pubs (List.tl (w_pubs st))
    (with_trace (fun t => t ++ [value_event idx entry payload st]) st).

(** The state after lines 226 and 227. *)
Definition after_record (idx : nat) (entry : Entry) (payload : PyVal) (st : State) : State :=
  with_last_values (fun m => <[idx := payload]> m) (after_publish idx entry payload st).

(** Is [e] a publish of channel [j]? *)
Definition is_site (j : nat) (e : Event) : bool :=
  match e with
  | EvPublish (SiteChannel i) _ _ _ _ => (i =? j)%nat
  | _ => false
  end.

(** The publishes of channel [j] among some events. *)
Definition site_events (j : nat) (t : list Event) : list Event :=
  List.filter (is_site j) t.

(** What one line does for index [j] holding [val], from the cache
    [cache] to the cache [cache'], with the events [new]. *)
Definition index_result (cache cache' : gmap nat PyVal) (new : list Event)
    (j : nat) (val : option PyVal) : Prop :=
  match channel_lookup channel_map j, val with
  | Some entry, Some v =>
      let payload := channel_payload j v in
      if unchanged cache j payload
      then site_events j new = [] /\ cache' !! j = cache !! j
      else (exists o, o <> PubRaises /\
              site_events j new =
                [EvPublish (SiteChannel j) (channel_topic entry) (PVal payload)
                   MQTT_RETAIN o])
           /\ cache' !! j = Some payload
  | _, _ => site_events j new = [] /\ cache' !! j = cache !! j
  end.

(** A payload that compares as unchanged with itself: any integer or
    string, and a finite float when the tolerance is positive. *)
Definition steady (payload : PyVal) : Prop :=
  is_float payload = false
  \/ exists x, payload = VFloat x /\ is_finite x = true
               /\ fltb (S754_zero false) FLOAT_EPS = true.

End Vocabulary.

(** The bridge when it enters the read loop: connected, nothing cached. *)
Definition Bridge_running : State := with_handles 1 (with_tn (Some 0%nat) Bridge_init).

(** ** Reconnecting *)

(** A publish of ["online"] or ["offline"] on the status topic. *)
Definition status_event (base : str) (word : string) (o : PubOutcome) : Event :=
  EvPublish SiteStatus (MQTT_STATUS base) (PVal (VStr (lit word))) true o.

(** The events of the block up to the call of
    [connect_telnet_with_backoff]. *)
Definition teardown_events (base : str) (h : Handle) (st : State) : list Event :=
  [EvLog ERROR LogLoopError; EvClose h;
   status_event base "offline" (List.hd PubOk (w_pubs st)); EvSleep 2].

(** The events of the whole block when the source accepts after [n]
    refusals. *)
Definition reconnect_events (base : str) (h : Handle) (n : nat) (st : State) : list Event :=
  teardown_events base h st
  ++ failed_rounds n 1 ++ connected_round
  ++ [status_event base "online" (List.hd PubOk (List.tl (w_pubs st)))].

(** The state after the block when the source accepts after [n]
    refusals. *)
Definition reconnected (base : str) (h : Handle) (n : nat) (rest : list bool) (st : State)
  : State :=
  {| last_values := last_values st; running := running st;
     tn := Some (w_handles st);
     w_trace := w_trace st ++ reconnect_events base h n st;
     w_pubs := List.tl (List.tl (w_pubs st));
     w_conns := rest;
     w_closes := List.tl (w_closes st);
     w_handles := S (w_handles st) |}.

(** The state in which the block waits when the source refuses [n] times
    and has not answered since. *)
Definition waiting (base : str) (h : Handle) (n : nat) (st : State) : State :=
  {| last_values := last_values st; running := running st; tn := tn st;
     w_trace := w_trace st ++ teardown_events base h st
                ++ failed_rounds n 1 ++ [EvLog INFO LogTelnetConnecting];
     w_pubs := List.tl (w_pubs st);
     w_conns := [];
     w_closes := List.tl (w_closes st);
     w_handles := w_handles st |}.

(** The bridge after the call of [read_until]. *)
Definition after_read (st : State) : State :=
  with_trace (fun t => t ++ [EvRead]) st.

(** A link about to fail: [close] and the next [publish] will raise and
    the source will refuse once before it accepts. *)
Definition broken_link : State :=
  with_closes [true] (with_pubs [PubRaises; PubOk] (with_conns [false; true] Bridge_running)).

(** The state after [try: self.tn.close() except Exception: pass]. *)
Definition closed (st : State) : State :=
  match tn st with
  | Some h => with_closes (List.tl (w_closes st)) (with_trace (fun t => t ++ [EvClose h]) st)
  | None => st
  end.

(** What a line, or a round of the loop, did about channel [j]: nothing;
    a publish that returned, and then the cache holds its payload; or a
    publish that raised, and then the cache is as before. *)
Definition channel_outcome (cache cache' : gmap nat PyVal) (new : list Event)
    (res : Res unit) (j : nat) : Prop :=
  (site_events j new = [] /\ cache' !! j = cache !! j)
  \/ (exists topic payload retain o,
        o <> PubRaises
        /\ site_events j new = [EvPublish (SiteChannel j) topic (PVal payload) retain o]
        /\ cache' !! j = Some payload)
  \/ (exists topic payload retain,
        site_events j new = [EvPublish (SiteChannel j) topic (PVal payload) retain PubRaises]
        /\ cache' !! j = cache !! j
        /\ res = Raise PublishError).

(** The link fields of the state are the same. *)
Definition same_link (st st' : State) : Prop :=
  running st' = running st /\ tn st' = tn st /\ w_conns st' = w_conns st
  /\ w_closes st' = w_closes st /\ w_handles st' = w_handles st.

(** What a round of the loop did about channel [j]: as for a line, and a
    publish that raised is followed by the log entry of the [except]
    block. *)
Definition round_outcome (cache cache' : gmap nat PyVal) (new : list Event) (j : nat)
  : Prop :=
  (site_events j new = [] /\ cache' !! j = cache !! j)
  \/ (exists topic payload retain o,
        o <> PubRaises
        /\ site_events j new = [EvPublish (SiteChannel j) topic (PVal payload) retain o]
        /\ cache' !! j = Some payload)
  \/ (exists topic payload retain,
        site_events j new = [EvPublish (SiteChannel j) topic (PVal payload) retain PubRaises]
        /\ cache' !! j = cache !! j
        /\ In (EvLog ERROR LogLoopError) new).

(** ** Lines of the loop *)

(** The values of a line of the loop, read off its tokens: those of the
    tokens after the first when the first token starts with the marker,
    and none otherwise. *)
Definition line_values (text : str) : list (option PyVal) :=
  match split text with
  | first :: rest => if startswith marker first then List.map parse_token rest else []
  | [] => []
  end.

(** The values a round of the loop works on. *)
Definition round_values (r : ReadOutcome) : list (option PyVal) :=
  match r with
  | ReadData text => line_values text
  | _ => []
  end.

(** A number, as opposed to a text. *)
Definition is_number (p : PyVal) : bool :=
  match p with
  | VStr _ => false
  | _ => true
  end.

(** A label of [ZK_STATUS_MAP]. *)
Definition is_label (p : PyVal) : Prop :=
  exists k label, In (k, label) ZK_STATUS_MAP /\ p = VStr label.

(** What channel [j] carries: a label on channel 0, a number elsewhere. *)
Definition payload_ok (j : nat) (p : PyVal) : Prop :=
  if (j =? 0)%nat then is_label p else is_number p = true.

(** A cache that holds channels of the table only, each with a payload
    of its kind. *)
Definition cache_ok (channel_map : IntDict Entry) (cache : gmap nat PyVal) : Prop :=
  forall j p, cache !! j = Some p ->
    is_Some (channel_lookup channel_map j) /\ payload_ok j p.

(** The publish that the values [values] of a line call for on channel
    [j] over the cache [cache]: the index holds a value and has an entry,
    and the cache does not hold the payload back. *)
Definition called_for (channel_map : IntDict Entry) (base : str) (eps : float)
    (retain : bool) (cache : gmap nat PyVal) (values : list (option PyVal))
    (j : nat) (e : Event) : Prop :=
  exists entry v o,
    values !! j = Some (Some v)
    /\ channel_lookup channel_map j = Some entry
    /\ unchanged eps cache j (channel_payload j v) = false
    /\ e = EvPublish (SiteChannel j) (channel_topic base entry)
             (PVal (channel_payload j v)) retain o.

(** What a round did about channel [j]: nothing, or the one publish that
    is called for, after which the cache holds its payload unless the
    call raised. *)
Definition channel_step (channel_map : IntDict Entry) (base : str) (eps : float)
    (retain : bool) (cache cache' : gmap nat PyVal) (values : list (option PyVal))
    (new : list Event) (j : nat) : Prop :=
  (site_events j new = [] /\ cache' !! j = cache !! j)
  \/ exists e,
       called_for channel_map base eps retain cache values j e
       /\ site_events j new = [e]
       /\ (cache' !! j = cache !! j
           \/ exists topic payload o,
                e = EvPublish (SiteChannel j) topic (PVal payload) retain o
                /\ o <> PubRaises /\ cache' !! j = Some payload).

(** ** The end of the loop *)

(** The events of [close] in [cleanup] and in the [except] block: none
    when no handle is held. *)
Definition close_events (st : State) : list Event :=
  match tn st with
  | Some h => [EvClose h]
  | None => []
  end.

(** The events of [cleanup]. *)
Definition cleanup_events (base : str) (st : State) : list Event :=
  [status_event base "offline" (List.hd PubOk (w_pubs st))]
  ++ close_events st ++ [EvLoopStop; EvLog INFO LogCleanupDone].

(** The state after [cleanup]. *)
Definition cleaned (base : str) (st : State) : State :=
  {| last_values := last_values st; running := running st; tn := tn st;
     w_trace := w_trace st ++ cleanup_events base st;
     w_pubs := List.tl (w_pubs st);
     w_conns := w_conns st;
     w_closes := match tn st with
                 | Some _ => List.tl (w_closes st)
                 | None => w_closes st
                 end;
     w_handles := w_handles st |}.

(** The state after [stop]. *)
Definition stopped (st : State) : State :=
  with_running false (with_trace (fun t => t ++ [EvLog INFO LogStopSignal]) st).

(** ** The start of the bridge *)

(** [Bridge.start] from line 191 on, once [mqtt_connect] has returned a
    client: discovery, the telnet link, the loop and [cleanup]. *)
Definition start_connected (channel_map : IntDict Entry) (base : str) (eps : float)
    (retain : bool) (script : list LoopInput) : M unit :=
  send_discovery channel_map base;;
  h ← connect_telnet_with_backoff;
  modify (with_tn (Some h));;
  run_loop channel_map base eps retain script.

(** The descriptors of [send_discovery], in the order of their
    publication. *)
Definition descriptors (channel_map : IntDict Entry) (base : str)
  : list (Site * str * Payload * bool) :=
  List.map (sensor_message base) channel_map ++ [connectivity_message base].

(** The events between two states. *)
Definition events_since (st st' : State) : list Event :=
  drop (length (w_trace st)) (w_trace st').

(** An event of [send_discovery]: the publication of a descriptor or
    the log entry that follows it. *)
Definition is_discovery_event (e : Event) : bool :=
  match e with
  | EvPublish SiteDiscovery _ (PJson _) true _ => true
  | EvLog INFO (LogDiscoverySent _) => true
  | EvLog INFO LogConnectivitySent => true
  | _ => false
  end.

(** The bridge before discovery when the second call of [publish] will
    raise. *)
Definition failing_bus : State := with_pubs [PubOk; PubRaises] Bridge_init.

(** ** Status codes *)

(** The codes with a label of their own: code 0 shares its label,
    ["Unbekannt"], with every code that is not in [ZK_STATUS_MAP]. *)
Definition has_own_label (code : Z) : Prop := 1 <= code <= 12.

(** ** Retain flags *)

(** Does a publication carry the retain flag of its call site: the
    configured flag for the value of a channel, and [True] for a status
    message and for a descriptor?  Other events pass. *)
Definition retain_ok (retain : bool) (e : Event) : bool :=
  match e with
  | EvPublish (SiteChannel _) _ _ r _ => Bool.eqb r retain
  | EvPublish _ _ _ r _ => r
  | _ => true
  end.

(** [st'] comes after [st] by events that all pass [P]. *)
Definition extends (P : Event -> bool) (st st' : State) : Prop :=
  exists new, w_trace st' = w_trace st ++ new /\ Forall (fun e => P e = true) new.

(* ===================================================================== *)
(** * Properties of the text functions *)
(* ===================================================================== *)

Lemma split_from_spaces (cur w : str) :
  all_space w ->
  split_from cur w = match cur with [] => [] | _ => [rev cur] end.
Proof.
  intros Hw. revert cur. induction Hw as [|c w Hc Hw IH]; intros cur; simpl.
  - reflexivity.
  - rewrite Hc. destruct cur; rewrite IH; reflexivity.
Qed.

Lemma split_from_app_spaces (cur t w : str) :
  all_space w -> split_from cur (t ++ w) = split_from cur t.
Proof.
  intros Hw. revert cur. induction t as [|c t IH]; intros cur; simpl.
  - apply split_from_spaces, Hw.
  - destruct (is_space c); [destruct cur|]; rewrite IH; reflexivity.
Qed.

Lemma lstrip_decomp (s : str) : exists w, all_space w /\ s = w ++ lstrip s.
Proof.
  induction s as [|c s [w [Hw Hs]]]; simpl.
  - exists []. split; [constructor | reflexivity].
  - destruct (is_space c) eqn:Hc.
    + exists (c :: w). split; [constructor; assumption | simpl; congruence].
    + exists []. split; [constructor | reflexivity].
Qed.

Lemma rstrip_decomp (s : str) : exists w, all_space w /\ s = rstrip s ++ w.
Proof.
  destruct (lstrip_decomp (rev s)) as [w [Hw Hs]].
  exists (rev w). split.
  - unfold all_space in *. rewrite Forall_forall in *. intros c Hc.
    apply Hw. apply list_elem_of_In. apply list_elem_of_In in Hc.
    apply in_rev. exact Hc.
  - unfold rstrip. rewrite <- rev_app_distr, <- Hs, rev_involutive. reflexivity.
Qed.

Lemma split_lstrip (s : str) : split (lstrip s) = split s.
Proof.
  unfold split. induction s as [|c s IH]; simpl; [reflexivity|].
  destruct (is_space c) eqn:Hc; [exact IH | simpl; rewrite Hc; reflexivity].
Qed.

Lemma split_rstrip (s : str) : split (rstrip s) = split s.
Proof.
  destruct (rstrip_decomp s) as [w [Hw Hs]].
  rewrite Hs at 2. unfold split. symmetry. apply split_from_app_spaces, Hw.
Qed.

(** Stripping a line does not change its tokens. *)
Lemma split_strip (s : str) : split (strip s) = split s.
Proof. unfold strip. rewrite split_rstrip. apply split_lstrip. Qed.

Lemma split_from_tokens (cur s : str) :
  Forall (fun c => is_space c = false) cur ->
  Forall is_token (split_from cur s).
Proof.
  revert cur. induction s as [|c s IH]; intros cur Hcur; simpl.
  - destruct cur as [|a cur]; constructor; [|constructor].
    split.
    + intros E. apply (f_equal (@length _)) in E.
      rewrite length_rev in E. discriminate E.
    + rewrite Forall_forall in *. intros x Hx. apply Hcur.
      apply list_elem_of_In. apply list_elem_of_In in Hx.
      apply in_rev. exact Hx.
  - destruct (is_space c) eqn:Hc.
    + destruct cur as [|a cur].
      * apply IH. constructor.
      * constructor; [|apply IH; constructor].
        split.
        -- intros E. apply (f_equal (@length _)) in E.
           rewrite length_rev in E. discriminate E.
        -- rewrite Forall_forall in *. intros x Hx. apply Hcur.
           apply list_elem_of_In. apply list_elem_of_In in Hx.
           apply in_rev. exact Hx.
    + apply IH. constructor; assumption.
Qed.

Lemma split_tokens (s : str) : Forall is_token (split s).
Proof. apply split_from_tokens. constructor. Qed.

(* ===================================================================== *)
(** * The Value Decoder: [parse_pm_line] *)
(* ===================================================================== *)

(** What [parse_pm_line] returns on a line it accepts, in terms of the
    tokens of the line itself. *)
Lemma parse_pm_line_accepts (line : str) :
  startswith marker line = true ->
  (2 <= length (split line))%nat ->
  parse_pm_line line = Some (List.map parse_token (tail (split line))).
Proof.
  intros Hm Hn. unfold parse_pm_line. rewrite split_strip, Hm.
  destruct line as [|c line]; [discriminate Hm|].
  rewrite bool_decide_eq_false_2 by discriminate. simpl negb. cbv iota.
  destruct (Nat.ltb_spec (length (split (c :: line))) 2) as [Hlt|_]; [lia|].
  reflexivity.
Qed.

Lemma parse_pm_line_rejects (line : str) :
  line = [] \/ startswith marker line = false \/ (length (split line) < 2)%nat ->
  parse_pm_line line = None.
Proof.
  intros H. unfold parse_pm_line. rewrite split_strip.
  destruct (bool_decide (line = [])) eqn:He; [reflexivity|].
  apply bool_decide_eq_false in He.
  destruct (startswith marker line) eqn:Hm; [|reflexivity].
  destruct H as [H|[H|H]]; [contradiction | discriminate |].
  simpl. destruct (Nat.ltb_spec (length (split line)) 2); [reflexivity | lia].
Qed.


(** C9: the marker test of [parse_pm_line] is [startswith] alone: a line
    of at least two tokens whose text starts with ["pm"] is decoded
    whatever follows the two characters in its first token, and the whole
    first token is dropped: the values are those of the second, third, ...
    token.  ["pmX 1 2"] and ["pm7 1 2"] both give [[1, 2]]. *)
Theorem parse_pm_line_prefix_only :
  (forall line,
      startswith marker line = true ->
      (2 <= length (split line))%nat ->
      exists first rest,
        split line = first :: rest
        /\ parse_pm_line line = Some (List.map parse_token rest))
  /\ split (lit "pmX 1 2") = [lit "pmX"; lit "1"; lit "2"]
  /\ parse_pm_line (lit "pmX 1 2") = Some [Some (VInt 1); Some (VInt 2)]
  /\ parse_pm_line (lit "pm7 1 2") = Some [Some (VInt 1); Some (VInt 2)].
Proof.
  split; [|repeat split; vm_compute; reflexivity].
  intros line Hm Hn. rewrite (parse_pm_line_accepts line Hm Hn).
  destruct (split line) as [|first rest]; [simpl in Hn; lia|].
  exists first, rest. split; reflexivity.
Qed.

Lemma parse_pm_line_prefix_only_witness :
  exists first rest,
    split (lit "pmX 1 2") = first :: rest
    /\ parse_pm_line (lit "pmX 1 2") = Some (List.map parse_token rest).
Proof.
  apply (proj1 parse_pm_line_prefix_only (lit "pmX 1 2")).
  - reflexivity.
  - vm_compute. lia.
Defined.

(* ===================================================================== *)
(** * The Channel Translator: channel 0 and [ZK_STATUS_MAP] *)
(* ===================================================================== *)

(** A float equals at most one integer. *)
Lemma float_eq_int_inj (f : float) (j k : Z) :
  float_eq_int f j = true -> float_eq_int f k = true -> j = k.
Proof.
  destruct f as [s| | |s m e]; simpl; try discriminate.
  - intros Hj Hk. apply Z.eqb_eq in Hj, Hk. congruence.
  - destruct (0 <=? e) eqn:He; intros Hj Hk; apply Z.eqb_eq in Hj, Hk.
    + congruence.
    + apply Z.leb_gt in He.
      assert (0 < 2 ^ (- e)) by (apply Z.pow_pos_nonneg; lia).
      apply (Z.mul_reg_r _ _ (2 ^ (- e))); [lia | congruence].
Qed.

Lemma key_matches_inj (v : PyVal) (j k : Z) :
  key_matches v j = true -> key_matches v k = true -> j = k.
Proof.
  destruct v as [z|f|s]; simpl; try discriminate.
  - intros Hj Hk. apply Z.eqb_eq in Hj, Hk. congruence.
  - apply float_eq_int_inj.
Qed.

(** A lookup finds the entry of the key that the value equals. *)
Lemma dict_find_matches {V} (d : IntDict V) (x : PyVal) (k : Z) (v : V) :
  NoDup (List.map fst d) -> In (k, v) d -> key_matches x k = true ->
  dict_find d x = Some v.
Proof.
  unfold dict_find. induction d as [|[k0 v0] d IH]; intros Hnd Hin Hk; [destruct Hin|].
  simpl. apply NoDup_cons in Hnd as [Hk0 Hnd].
  destruct (key_matches x k0) eqn:H0.
  - simpl. destruct Hin as [E|Hin]; [congruence|].
    exfalso. apply Hk0. rewrite (key_matches_inj x k0 k H0 Hk).
    apply list_elem_of_In. apply (in_map fst _ _ Hin).
  - destruct Hin as [E|Hin]; [congruence|]. apply IH; assumption.
Qed.

Lemma dict_find_no_match {V} (d : IntDict V) (x : PyVal) :
  (forall k v, In (k, v) d -> key_matches x k = false) ->
  dict_find d x = None.
Proof.
  unfold dict_find. induction d as [|[k0 v0] d IH]; intros H; [reflexivity|].
  simpl. rewrite (H k0 v0) by (left; reflexivity).
  apply IH. intros k v Hin. apply (H k v). right. exact Hin.
Qed.

Lemma ZK_STATUS_MAP_keys : List.map fst ZK_STATUS_MAP = List.map Z.of_nat (seq 0 13).
Proof. reflexivity. Qed.

Lemma ZK_STATUS_MAP_NoDup : NoDup (List.map fst ZK_STATUS_MAP).
Proof.
  rewrite ZK_STATUS_MAP_keys. apply NoDup_fmap_2; [|apply NoDup_seq].
  intros a b. apply Nat2Z.inj.
Qed.

Lemma ZK_STATUS_MAP_key_range (k : Z) (v : str) :
  In (k, v) ZK_STATUS_MAP -> 0 <= k <= 12.
Proof.
  intros H. apply (in_map fst) in H. rewrite ZK_STATUS_MAP_keys in H.
  simpl fst in H. apply in_map_iff in H as [n [Hk Hn]].
  apply in_seq in Hn. lia.
Qed.

(** Channel 0 never raises: the default [ZK_STATUS_MAP[0]] exists. *)
Lemma translate_status (val : PyVal) (st : State) :
  translate 0 val st = (Ok (VStr (dict_get ZK_STATUS_MAP val Unbekannt)), st).
Proof. reflexivity. Qed.

Lemma translate_status_found (val : PyVal) (k : Z) (label : str) (st : State) :
  In (k, label) ZK_STATUS_MAP -> key_matches val k = true ->
  translate 0 val st = (Ok (VStr label), st).
Proof.
  intros Hin Hk. rewrite translate_status. unfold dict_get.
  rewrite (dict_find_matches _ _ k label ZK_STATUS_MAP_NoDup Hin Hk). reflexivity.
Qed.

Lemma translate_status_default (val : PyVal) (st : State) :
  (forall k, 0 <= k <= 12 -> key_matches val k = false) ->
  translate 0 val st = (Ok (VStr Unbekannt), st).
Proof.
  intros H. rewrite translate_status. unfold dict_get.
  rewrite dict_find_no_match; [reflexivity|].
  intros k v Hin. apply H. apply (ZK_STATUS_MAP_key_range k v Hin).
Qed.

(** C3: on channel 0 an integer code from 0 to 12 becomes its label of
    [ZK_STATUS_MAP], any other integer becomes the label of code 0,
    ["Unbekannt"], and no integer makes the translation raise. *)
Theorem status_code_translation (st : State) :
  translate 0 (VInt 0) st = (Ok (VStr (lit "Unbekannt")), st)
  /\ translate 0 (VInt 1) st = (Ok (VStr (lit "Aus")), st)
  /\ translate 0 (VInt 2) st = (Ok (VStr (lit "Startvorbereitung")), st)
  /\ translate 0 (VInt 3) st = (Ok (VStr (lit "Kessel Start")), st)
  /\ translate 0 (VInt 4) st = (Ok (VStr (lit "Zündüberwachung")), st)
  /\ translate 0 (VInt 5) st = (Ok (VStr (lit "Zündung")), st)
  /\ translate 0 (VInt 6) st = (Ok (VStr (lit "Übergang LB")), st)
  /\ translate 0 (VInt 7) st = (Ok (VStr (lit "Leistungsbrand")), st)
  /\ translate 0 (VInt 8) st = (Ok (VStr (lit "Gluterhaltung")), st)
  /\ translate 0 (VInt 9) st = (Ok (VStr (lit "Warten auf EA")), st)
  /\ translate 0 (VInt 10) st = (Ok (VStr (lit "Entaschung")), st)
  /\ translate 0 (VInt 11) st = (Ok (VStr (lit "-")), st)
  /\ translate 0 (VInt 12) st = (Ok (VStr (lit "Putzen")), st)
  /\ (forall z, z < 0 \/ 12 < z ->
        translate 0 (VInt z) st = (Ok (VStr (lit "Unbekannt")), st))
  /\ translate 0 (VInt 99) st = (Ok (VStr (lit "Unbekannt")), st)
  /\ translate 0 (VInt (-1)) st = (Ok (VStr (lit "Unbekannt")), st)
  /\ (forall z, exists label, translate 0 (VInt z) st = (Ok (VStr label), st)).
Proof.
  assert (Hout : forall z, z < 0 \/ 12 < z ->
            translate 0 (VInt z) st = (Ok (VStr (lit "Unbekannt")), st)).
  { intros z Hz. apply translate_status_default.
    intros k Hk. simpl. apply Z.eqb_neq. lia. }
  repeat match goal with |- _ /\ _ => split end;
    try reflexivity; try exact Hout; try (apply Hout; lia).
  intros z. rewrite translate_status. eexists. reflexivity.
Qed.

(** C10: a float on channel 0 is looked up by numeric equality and never
    raises: a float equal to a code of [ZK_STATUS_MAP] gives the label of
    that code (the token ["3.0"] gives 3.0 and then ["Kessel Start"]), and
    a float equal to none of the codes 0..12 gives ["Unbekannt"]. *)
Theorem status_float_translation (st : State) :
  (forall f k label,
      In (k, label) ZK_STATUS_MAP -> float_eq_int f k = true ->
      translate 0 (VFloat f) st = (Ok (VStr label), st))
  /\ (forall f,
        (forall k, 0 <= k <= 12 -> float_eq_int f k = false) ->
        translate 0 (VFloat f) st = (Ok (VStr (lit "Unbekannt")), st))
  /\ (forall f, exists label, translate 0 (VFloat f) st = (Ok (VStr label), st))
  /\ parse_token (lit "3.0") = Some (VFloat f_3_0)
  /\ translate 0 (VFloat f_3_0) st = (Ok (VStr (lit "Kessel Start")), st)
  /\ parse_token (lit "3.5") = Some (VFloat f_3_5)
  /\ translate 0 (VFloat f_3_5) st = (Ok (VStr (lit "Unbekannt")), st)
  /\ parse_token (lit "13.0") = Some (VFloat f_13_0)
  /\ translate 0 (VFloat f_13_0) st = (Ok (VStr (lit "Unbekannt")), st)
  /\ parse_token (lit "1.0e999") = Some (VFloat (S754_infinity false))
  /\ translate 0 (VFloat (S754_infinity false)) st = (Ok (VStr (lit "Unbekannt")), st).
Proof.
  split.
  { intros f k label Hin Hk. apply (translate_status_found _ k); assumption. }
  split.
  { intros f H. apply translate_status_default. exact H. }
  split.
  { intros f. rewrite translate_status. eexists. reflexivity. }
  repeat split; vm_compute; reflexivity.
Qed.

Lemma status_float_translation_witness :
  translate 0 (VFloat f_3_0) Bridge_init = (Ok (VStr (lit "Kessel Start")), Bridge_init).
Proof.
  apply (proj1 (status_float_translation Bridge_init) f_3_0 3 (lit "Kessel Start")).
  - vm_compute. tauto.
  - reflexivity.
Defined.

(* ===================================================================== *)
(** * The telnet link: [connect_telnet_with_backoff] *)
(* ===================================================================== *)

(** Runs the monadic primitives of a goal on the state at hand. *)
Ltac unfold_m :=
  unfold try_pass, try_except, mbind, M_bind, bind, mret, M_ret, ret, raise,
    pending, log, sleep, emit, modify, publish, telnet_open, telnet_close,
    with_last_values, with_running, with_tn, with_trace, with_pubs,
    with_conns, with_closes, with_handles.

Ltac run_m := unfold_m; cbn.

(** The same, reducing only the fields of the state. *)
Ltac run_fields :=
  unfold_m;
  cbn [last_values running tn w_trace w_pubs w_conns w_closes w_handles
       List.hd List.tl fst snd].

Lemma State_ext (a b : State) :
  last_values a = last_values b -> running a = running b -> tn a = tn b ->
  w_trace a = w_trace b -> w_pubs a = w_pubs b -> w_conns a = w_conns b ->
  w_closes a = w_closes b -> w_handles a = w_handles b ->
  a = b.
Proof. destruct a, b. simpl. intros. subst. reflexivity. Qed.

(** Two chains of updates give the same state: field by field. *)
Ltac run_state :=
  apply State_ext;
  cbn [with_last_values with_running with_tn with_trace with_pubs
       with_conns with_closes with_handles
       last_values running tn w_trace w_pubs w_conns w_closes w_handles];
  rewrite <- ?app_assoc; try reflexivity.

Lemma connect_loop_succeeds (n fuel : nat) (delay : Z) (st : State) (rest : list bool) :
  w_conns st = repeat false n ++ true :: rest ->
  (n < fuel)%nat ->
  connect_loop fuel delay st =
    (Ok (w_handles st),
     with_handles (S (w_handles st))
       (with_conns rest
          (with_trace (fun t => t ++ failed_rounds n delay ++ connected_round) st))).
Proof.
  revert fuel delay st. induction n as [|n IH]; intros fuel delay st Hc Hf.
  - destruct fuel as [|fuel]; [lia|].
    destruct st. simpl in Hc. subst. cbn. run_m.
    rewrite <- !app_assoc. reflexivity.
  - destruct fuel as [|fuel]; [lia|].
    destruct st. simpl in Hc. subst. cbn. run_m.
    rewrite IH; [|reflexivity|lia].
    run_m. rewrite <- !app_assoc. reflexivity.
Qed.

Lemma connect_loop_blocks (n fuel : nat) (delay : Z) (st : State) :
  w_conns st = repeat false n ->
  (n < fuel)%nat ->
  connect_loop fuel delay st =
    (Pending,
     with_conns []
       (with_trace
          (fun t => t ++ failed_rounds n delay ++ [EvLog INFO LogTelnetConnecting]) st)).
Proof.
  revert fuel delay st. induction n as [|n IH]; intros fuel delay st Hc Hf.
  - destruct fuel as [|fuel]; [lia|].
    destruct st. simpl in Hc. subst. cbn. run_m. reflexivity.
  - destruct fuel as [|fuel]; [lia|].
    destruct st. simpl in Hc. subst. cbn. run_m.
    rewrite IH; [|reflexivity|lia].
    run_m. rewrite <- !app_assoc. reflexivity.
Qed.

(** A script of answers is a run of refusals, followed or not by an
    acceptance. *)
Lemma conn_script_cases (l : list bool) :
  (exists n rest, l = repeat false n ++ true :: rest) \/ l = repeat false (length l).
Proof.
  induction l as [|b l IH].
  - right. reflexivity.
  - destruct b.
    + left. exists 0%nat, l. reflexivity.
    + destruct IH as [[n [rest E]]|E].
      * left. exists (S n), rest. simpl. congruence.
      * right. simpl. congruence.
Qed.

Lemma backoff_delay_next (k : nat) :
  Z.min (backoff_delay k * 2) 30 = backoff_delay (S k).
Proof.
  unfold backoff_delay. rewrite Nat2Z.inj_succ, Z.pow_succ_r by lia.
  assert (0 < 2 ^ Z.of_nat k) by (apply Z.pow_pos_nonneg; lia). lia.
Qed.

Lemma sleeps_failed_rounds (n k : nat) :
  sleeps_of (failed_rounds n (backoff_delay k))
  = List.map (fun i => backoff_delay (k + i)) (seq 0 n).
Proof.
  revert k. induction n as [|n IH]; intros k; [reflexivity|].
  cbn [failed_rounds seq List.map]. unfold sleeps_of in *.
  rewrite omap_app. cbn [omap list_omap app].
  rewrite backoff_delay_next, IH, <- seq_shift, List.map_map.
  rewrite Nat.add_0_r. f_equal. apply List.map_ext. intros i. f_equal. lia.
Qed.

Lemma attempts_failed_rounds (n : nat) (delay : Z) :
  attempts_of (failed_rounds n delay) = repeat false n.
Proof.
  revert delay. induction n as [|n IH]; intros delay; [reflexivity|].
  cbn [failed_rounds repeat]. unfold attempts_of in *.
  rewrite omap_app. cbn [omap list_omap app]. rewrite IH. reflexivity.
Qed.

Lemma connect_accepted (st : State) (n : nat) (rest : list bool) :
  w_conns st = repeat false n ++ true :: rest ->
  connect_telnet_with_backoff st =
    (Ok (w_handles st),
     with_handles (S (w_handles st))
       (with_conns rest
          (with_trace (fun t => t ++ failed_rounds n 1 ++ connected_round) st))).
Proof.
  intros Hc. unfold connect_telnet_with_backoff.
  apply connect_loop_succeeds; [exact Hc|].
  rewrite Hc, length_app, repeat_length. simpl. lia.
Qed.

Lemma connect_refused (st : State) (n : nat) :
  w_conns st = repeat false n ->
  connect_telnet_with_backoff st =
    (Pending,
     with_conns []
       (with_trace
          (fun t => t ++ failed_rounds n 1 ++ [EvLog INFO LogTelnetConnecting]) st)).
Proof.
  intros Hc. unfold connect_telnet_with_backoff.
  apply connect_loop_blocks; [exact Hc|].
  rewrite Hc, repeat_length. lia.
Qed.

Lemma connect_never_raises (st : State) (e : Exn) (st' : State) :
  connect_telnet_with_backoff st <> (Raise e, st').
Proof.
  intros H. destruct (conn_script_cases (w_conns st)) as [[n [rest E]]|E].
  - rewrite (connect_accepted st n rest E) in H. discriminate H.
  - rewrite (connect_refused st _ E) in H. discriminate H.
Qed.

Lemma sleeps_rounds_then (n : nat) (tl : list Event) :
  (forall e, In e tl -> match e with EvSleep _ => False | _ => True end) ->
  sleeps_of (failed_rounds n 1 ++ tl)
  = List.map (fun k => Z.min (2 ^ Z.of_nat k) 30) (seq 0 n).
Proof.
  intros Htl. unfold sleeps_of. rewrite omap_app.
  replace (omap _ tl) with (@nil Z).
  - rewrite app_nil_r. apply (sleeps_failed_rounds n 0).
  - induction tl as [|e tl IH]; [reflexivity|].
    cbn [omap list_omap]. pose proof (Htl e (or_introl eq_refl)) as He.
    destruct e; try contradiction; apply IH; intros e' He'; apply Htl; right; exact He'.
Qed.

(** C6: [connect_telnet_with_backoff] tries again after every refusal,
    however many there are, and returns only on the first acceptance; as
    long as the source refuses the call does not return, and it never
    raises.  Refusal number [k + 1] is followed by a sleep of
    [min(2^k, 30)]: 1, 2, 4, 8, 16, 30, 30, ... *)
Theorem connect_telnet_with_backoff_retries :
  (forall st n rest,
      w_conns st = repeat false n ++ true :: rest ->
      exists st',
        connect_telnet_with_backoff st = (Ok (w_handles st), st')
        /\ w_trace st' = w_trace st ++ failed_rounds n 1 ++ connected_round
        /\ attempts_of (failed_rounds n 1 ++ connected_round) = repeat false n ++ [true]
        /\ sleeps_of (failed_rounds n 1 ++ connected_round)
           = List.map (fun k => Z.min (2 ^ Z.of_nat k) 30) (seq 0 n)
        /\ w_conns st' = rest)
  /\ (forall st n,
        w_conns st = repeat false n ->
        exists st',
          connect_telnet_with_backoff st = (Pending, st')
          /\ attempts_of (drop (length (w_trace st)) (w_trace st')) = repeat false n
          /\ sleeps_of (drop (length (w_trace st)) (w_trace st'))
             = List.map (fun k => Z.min (2 ^ Z.of_nat k) 30) (seq 0 n))
  /\ (forall st h st',
        connect_telnet_with_backoff st = (Ok h, st') ->
        exists n rest, w_conns st = repeat false n ++ true :: rest)
  /\ (forall st e st', connect_telnet_with_backoff st <> (Raise e, st'))
  /\ List.map (fun k => Z.min (2 ^ Z.of_nat k) 30) (seq 0 8)
     = [1; 2; 4; 8; 16; 30; 30; 30].
Proof.
  split.
  { intros st n rest Hc. eexists. split; [apply connect_accepted, Hc|].
    split; [reflexivity|]. split.
    - unfold attempts_of. rewrite omap_app.
      change (omap _ (failed_rounds n 1)) with (attempts_of (failed_rounds n 1)).
      rewrite attempts_failed_rounds. reflexivity.
    - split; [|reflexivity]. apply sleeps_rounds_then.
      intros e [<-|[<-|[<-|[]]]]; exact I. }
  split.
  { intros st n Hc. eexists. split; [apply connect_refused, Hc|].
    cbn [w_trace with_conns with_trace]. rewrite drop_app_length. split.
    - unfold attempts_of. rewrite omap_app.
      change (omap _ (failed_rounds n 1)) with (attempts_of (failed_rounds n 1)).
      rewrite attempts_failed_rounds. apply app_nil_r.
    - apply sleeps_rounds_then. intros e [<-|[]]; exact I. }
  split.
  { intros st h st' H.
    destruct (conn_script_cases (w_conns st)) as [[n [rest E]]|E].
    - exists n, rest. exact E.
    - rewrite (connect_refused st _ E) in H. discriminate H. }
  split; [exact connect_never_raises|].
  reflexivity.
Qed.

Lemma connect_telnet_with_backoff_retries_witness :
  exists st',
    connect_telnet_with_backoff
      (with_conns [false; false; false; false; false; false; true] Bridge_init)
    = (Ok 0%nat, st')
    /\ sleeps_of (w_trace st') = [1; 2; 4; 8; 16; 30].
Proof.
  destruct (proj1 connect_telnet_with_backoff_retries
              (with_conns [false; false; false; false; false; false; true] Bridge_init)
              6%nat [] eq_refl) as [st' [H [Ht [_ [Hs _]]]]].
  exists st'. split; [exact H|].
  rewrite Ht. exact Hs.
Defined.

(* ===================================================================== *)
(** * Discovery: [get_device_class] and [send_discovery] *)
(* ===================================================================== *)

Lemma str_eqb_eq (a b : str) : str_eqb a b = true <-> a = b.
Proof.
  revert b. induction a as [|x a IH]; intros [|y b]; simpl; split;
    try discriminate; try reflexivity.
  - intros H. apply andb_true_iff in H as [Hx Hab].
    apply N.eqb_eq in Hx. apply IH in Hab. congruence.
  - intros H. injection H as -> ->. rewrite N.eqb_refl. simpl. apply IH. reflexivity.
Qed.

Lemma str_eqb_neq (a b : str) : str_eqb a b = false <-> a <> b.
Proof.
  rewrite <- str_eqb_eq. destruct (str_eqb a b); split; congruence.
Qed.

Lemma no_raise_tl (pubs : list PubOutcome) : no_raise pubs -> no_raise (List.tl pubs).
Proof. intros H. destruct H; [constructor | assumption]. Qed.

Lemma no_raise_hd (pubs : list PubOutcome) : no_raise pubs -> List.hd PubOk pubs <> PubRaises.
Proof. intros H. destruct H; [discriminate | assumption]. Qed.

Lemma publish_returns site topic payload retain (st : State) :
  List.hd PubOk (w_pubs st) <> PubRaises ->
  publish site topic payload retain st =
    (Ok tt,
     with_pubs (List.tl (w_pubs st))
       (with_trace
          (fun t => t ++ [EvPublish site topic payload retain (List.hd PubOk (w_pubs st))])
          st)).
Proof.
  intros H. unfold publish. destruct (List.hd PubOk (w_pubs st)); congruence.
Qed.

Lemma tl_drop {A} (n : nat) (l : list A) : List.tl (drop n l) = drop (S n) l.
Proof.
  revert l. induction n as [|n IH]; intros [|a l]; try reflexivity.
  simpl. apply IH.
Qed.







(* ===================================================================== *)
(** * The read loop: change filter, cache and failures *)
(* ===================================================================== *)

Section ReadLoop.

Variable channel_map : IntDict Entry.
Variable MQTT_BASE : str.
Variable FLOAT_EPS : float.
Variable MQTT_RETAIN : bool.

Lemma publish_value_cases (idx : nat) (val : option PyVal) (st : State) :
  publish_value channel_map MQTT_BASE FLOAT_EPS MQTT_RETAIN idx val st =
    match channel_lookup channel_map idx, val with
    | Some entry, Some v =>
        let payload := channel_payload idx v in
        if unchanged FLOAT_EPS (last_values st) idx payload then (Ok tt, st)
        else
          match List.hd PubOk (w_pubs st) with
          | PubRaises => (Raise PublishError, after_publish MQTT_BASE MQTT_RETAIN idx entry payload st)
          | _ => (Ok tt, after_record MQTT_BASE MQTT_RETAIN idx entry payload st)
          end
    | _, _ => (Ok tt, st)
    end.
Proof.
  unfold publish_value, unchanged, channel_payload, after_record, after_publish,
    value_event, channel_topic.
  destruct (channel_lookup channel_map idx) as [entry|]; [|reflexivity].
  destruct val as [v|]; [|reflexivity].
  unfold translate. destruct (idx =? 0)%nat.
  - change (dict_getitem ZK_STATUS_MAP 0) with (@mret M _ str Unbekannt).
    unfold get_last, set_last. run_fields.
    destruct (last_values st !! idx) as [l|].
    + destruct (almost_equal FLOAT_EPS l _); [reflexivity|].
      destruct (List.hd PubOk (w_pubs st)); reflexivity.
    + destruct (List.hd PubOk (w_pubs st)); reflexivity.
  - unfold get_last, set_last. run_fields.
    destruct (last_values st !! idx) as [l|].
    + destruct (almost_equal FLOAT_EPS l _); [reflexivity|].
      destruct (List.hd PubOk (w_pubs st)); reflexivity.
    + destruct (List.hd PubOk (w_pubs st)); reflexivity.
Qed.

Lemma site_events_app (j : nat) (a b : list Event) :
  site_events j (a ++ b) = site_events j a ++ site_events j b.
Proof. apply List.filter_app. Qed.

Lemma index_result_frame (cache1 cache cache' : gmap nat PyVal) (new1 new2 : list Event)
    (j : nat) (val : option PyVal) :
  cache1 !! j = cache !! j ->
  site_events j new1 = [] ->
  index_result channel_map MQTT_BASE FLOAT_EPS MQTT_RETAIN cache1 cache' new2 j val ->
  index_result channel_map MQTT_BASE FLOAT_EPS MQTT_RETAIN cache cache' (new1 ++ new2) j val.
Proof.
  intros Hc Hn. unfold index_result, unchanged.
  rewrite site_events_app, Hn, Hc. exact (fun H => H).
Qed.

Lemma process_values_spec (values : list (option PyVal)) :
  forall (idx : nat) (st : State),
    no_raise (w_pubs st) ->
    exists new st',
      process_values channel_map MQTT_BASE FLOAT_EPS MQTT_RETAIN idx values st = (Ok tt, st')
      /\ w_trace st' = w_trace st ++ new
      /\ no_raise (w_pubs st')
      /\ (forall j, (j < idx \/ idx + length values <= j)%nat ->
            last_values st' !! j = last_values st !! j /\ site_events j new = [])
      /\ (forall i val, values !! i = Some val ->
            index_result channel_map MQTT_BASE FLOAT_EPS MQTT_RETAIN (last_values st) (last_values st') new (idx + i) val).
Proof.
  induction values as [|val rest IH]; intros idx st Hnr.
  - exists [], st. split; [reflexivity|]. split; [symmetry; apply app_nil_r|].
    split; [exact Hnr|]. split; [intros j _; split; reflexivity|].
    intros i v Hi. discriminate Hi.
  - cbn [process_values]. unfold mbind, M_bind, bind.
    rewrite publish_value_cases.
    assert (Hskip :
      forall (Hidx : index_result channel_map MQTT_BASE FLOAT_EPS MQTT_RETAIN (last_values st) (last_values st) [] idx val),
      exists new st',
        process_values channel_map MQTT_BASE FLOAT_EPS MQTT_RETAIN (S idx) rest st = (Ok tt, st')
        /\ w_trace st' = w_trace st ++ new
        /\ no_raise (w_pubs st')
        /\ (forall j, (j < idx \/ idx + length (val :: rest) <= j)%nat ->
              last_values st' !! j = last_values st !! j /\ site_events j new = [])
        /\ (forall i val', (val :: rest) !! i = Some val' ->
              index_result channel_map MQTT_BASE FLOAT_EPS MQTT_RETAIN (last_values st) (last_values st') new (idx + i) val')).
    { intros Hidx.
      destruct (IH (S idx) st Hnr) as [new [st' [Hrun [Htr [Hnr' [Hframe Hres]]]]]].
      exists new, st'. split; [exact Hrun|]. split; [exact Htr|]. split; [exact Hnr'|].
      split.
      - intros j Hj. apply Hframe. cbn [length] in Hj. lia.
      - intros [|i] val' Hi.
        + injection Hi as <-. rewrite Nat.add_0_r.
          destruct (Hframe idx) as [Hc Hs]; [lia|].
          revert Hidx. unfold index_result. rewrite Hc, Hs.
          exact (fun H => H).
        + rewrite Nat.add_succ_r. apply (Hres i val' Hi). }
    destruct (channel_lookup channel_map idx) as [entry|] eqn:Hlook;
      [|apply Hskip; unfold index_result; rewrite Hlook; split; reflexivity].
    destruct val as [v|];
      [|apply Hskip; unfold index_result; rewrite Hlook; split; reflexivity].
    cbv zeta.
    destruct (unchanged FLOAT_EPS (last_values st) idx (channel_payload idx v)) eqn:Hun;
      [apply Hskip; unfold index_result; rewrite Hlook, Hun; split; reflexivity|].
    clear Hskip.
    pose proof (no_raise_hd _ Hnr) as Hhd.
    set (payload := channel_payload idx v) in *.
    set (st1 := after_record MQTT_BASE MQTT_RETAIN idx entry payload st).
    assert (Hst1 : (match List.hd PubOk (w_pubs st) with
                    | PubRaises => (Raise PublishError, after_publish MQTT_BASE MQTT_RETAIN idx entry payload st)
                    | _ => (Ok tt, st1)
                    end) = (Ok tt, st1)).
    { destruct (List.hd PubOk (w_pubs st)); [reflexivity | reflexivity | congruence]. }
    rewrite Hst1. clear Hst1.
    assert (Hnr1 : no_raise (w_pubs st1)) by (apply no_raise_tl, Hnr).
    destruct (IH (S idx) st1 Hnr1) as [new [st' [Hrun [Htr [Hnr' [Hframe Hres]]]]]].
    assert (Hsite : forall j, j <> idx ->
               site_events j [value_event MQTT_BASE MQTT_RETAIN idx entry payload st] = []).
    { intros j Hj. unfold site_events, value_event. cbn [List.filter is_site].
      destruct (Nat.eqb_spec idx j); [congruence | reflexivity]. }
    assert (Hcache : forall j, j <> idx -> last_values st1 !! j = last_values st !! j).
    { intros j Hj. apply lookup_insert_ne. congruence. }
    exists ([value_event MQTT_BASE MQTT_RETAIN idx entry payload st] ++ new), st'.
    split; [exact Hrun|].
    split; [rewrite Htr; symmetry; apply app_assoc|].
    split; [exact Hnr'|].
    split.
    + intros j Hj. cbn [length] in Hj.
      destruct (Hframe j) as [Hc Hs]; [lia|].
      split.
      * rewrite Hc. apply Hcache. lia.
      * rewrite site_events_app, Hsite by lia. exact Hs.
    + intros [|i] val' Hi.
      * injection Hi as <-. rewrite Nat.add_0_r.
        destruct (Hframe idx) as [Hc Hs]; [lia|].
        unfold index_result. rewrite Hlook. cbv zeta. fold payload. rewrite Hun.
        split.
        -- exists (List.hd PubOk (w_pubs st)). split; [exact Hhd|].
           rewrite site_events_app, Hs.
           unfold site_events, value_event. cbn [List.filter is_site].
           rewrite Nat.eqb_refl. reflexivity.
        -- rewrite Hc. apply lookup_insert_eq.
      * rewrite Nat.add_succ_r.
        apply (index_result_frame (last_values st1)).
        -- apply Hcache. lia.
        -- apply Hsite. lia.
        -- apply (Hres i val' Hi).
Qed.

(** ** The comparison rule *)

Lemma SFcompare_antisym (a b : float) :
  SFcompare b a = option_map CompOpp (SFcompare a b).
Proof.
  destruct a as [sa|sa| |sa ma ea], b as [sb|sb| |sb mb eb]; simpl;
    try reflexivity;
    try (destruct sa; reflexivity);
    try (destruct sb; reflexivity);
    try (destruct sa, sb; reflexivity).
  destruct sa, sb; try reflexivity;
    rewrite (Z.compare_antisym ea eb);
    destruct (ea ?= eb); simpl; try reflexivity;
    change (Pos.compare_cont Eq mb ma) with (Pos.compare mb ma);
    change (Pos.compare_cont Eq ma mb) with (Pos.compare ma mb);
    rewrite (Pos.compare_antisym ma mb); destruct (ma ?= mb)%positive; reflexivity.
Qed.

(** A difference at or beyond a bound is not strictly below it. *)
Lemma fleb_not_fltb (a b : float) : fleb a b = true -> fltb b a = false.
Proof.
  unfold fleb, fltb, SFleb, SFltb. rewrite (SFcompare_antisym a b).
  destruct (SFcompare a b) as [[| |]|]; simpl; congruence.
Qed.

(** A finite float minus itself is zero. *)
Lemma fsub_diag (x : float) : is_finite x = true -> fsub x x = S754_zero false.
Proof.
  destruct x as [s| | |s m e]; try discriminate; intros _.
  - destruct s; reflexivity.
  - unfold fsub. cbn [SFsub]. rewrite Z.sub_diag. reflexivity.
Qed.

Lemma almost_equal_exact (a b : PyVal) :
  is_float a = false -> is_float b = false ->
  (almost_equal FLOAT_EPS a b = true <-> a = b).
Proof.
  intros Ha Hb. unfold almost_equal. rewrite Ha, Hb. cbn [orb].
  destruct a as [x|x|x], b as [y|y|y]; try discriminate; cbn [py_eqb];
    split; try discriminate.
  - intros H. apply Z.eqb_eq in H. congruence.
  - intros H. injection H as ->. apply Z.eqb_refl.
  - intros H. apply str_eqb_eq in H. congruence.
  - intros H. injection H as ->. apply str_eqb_eq. reflexivity.
Qed.

Lemma almost_equal_floats (a b : PyVal) (x y : float) :
  is_float a || is_float b = true ->
  to_float a = Some x -> to_float b = Some y ->
  almost_equal FLOAT_EPS a b = fltb (fabs (fsub x y)) FLOAT_EPS.
Proof.
  intros Hf Hx Hy. unfold almost_equal. rewrite Hf, Hx, Hy. reflexivity.
Qed.

Lemma almost_equal_self (p : PyVal) :
  (is_float p = false
   \/ exists x, p = VFloat x /\ is_finite x = true
                /\ fltb (S754_zero false) FLOAT_EPS = true) ->
  almost_equal FLOAT_EPS p p = true.
Proof.
  intros [H|[x [-> [Hfin Heps]]]].
  - apply almost_equal_exact; [exact H | exact H | reflexivity].
  - unfold almost_equal. cbn [is_float orb to_float].
    rewrite (fsub_diag x Hfin). exact Heps.
Qed.

(** ** The change filter over a line *)

(** C1, as the code has it: while no call of [publish] raises, the line
    publishes the payload of an index that has a value and an entry if
    and only if the cache holds nothing for the index or holds a value
    that differs from the payload: by [==] when neither is a float, and
    otherwise by [abs(float(a) - float(b)) < FLOAT_EPS], a difference
    below the tolerance being unchanged and one at or beyond it changed.
    The first value of an index is published, and the same line read
    again publishes nothing for an index whose payload is an integer, a
    string, or a finite float under a positive tolerance. *)
Theorem change_filter_rule :
  (forall st values,
      no_raise (w_pubs st) ->
      exists new st',
        process_values channel_map MQTT_BASE FLOAT_EPS MQTT_RETAIN 0 values st = (Ok tt, st')
        /\ w_trace st' = w_trace st ++ new
        /\ forall i v entry,
             values !! i = Some (Some v) ->
             channel_lookup channel_map i = Some entry ->
             let payload := channel_payload i v in
             (site_events i new = []
              \/ exists o, site_events i new =
                             [EvPublish (SiteChannel i) (channel_topic MQTT_BASE entry)
                                (PVal payload) MQTT_RETAIN o])
             /\ (site_events i new <> [] <->
                   last_values st !! i = None
                   \/ exists c, last_values st !! i = Some c
                                /\ almost_equal FLOAT_EPS c payload = false))
  /\ (forall a b,
        is_float a = false -> is_float b = false ->
        (almost_equal FLOAT_EPS a b = true <-> a = b))
  /\ (forall a b x y,
        is_float a || is_float b = true ->
        to_float a = Some x -> to_float b = Some y ->
        (fltb (fabs (fsub x y)) FLOAT_EPS = true -> almost_equal FLOAT_EPS a b = true)
        /\ (fleb FLOAT_EPS (fabs (fsub x y)) = true -> almost_equal FLOAT_EPS a b = false))
  /\ (forall st values,
        no_raise (w_pubs st) ->
        exists new1 st1 new2 st2,
          process_values channel_map MQTT_BASE FLOAT_EPS MQTT_RETAIN 0 values st = (Ok tt, st1)
          /\ w_trace st1 = w_trace st ++ new1
          /\ process_values channel_map MQTT_BASE FLOAT_EPS MQTT_RETAIN 0 values st1
             = (Ok tt, st2)
          /\ w_trace st2 = w_trace st1 ++ new2
          /\ forall i v entry,
               values !! i = Some (Some v) ->
               channel_lookup channel_map i = Some entry ->
               steady FLOAT_EPS (channel_payload i v) ->
               site_events i new2 = []
               /\ (last_values st !! i = None ->
                    exists o, site_events i (new1 ++ new2) =
                                [EvPublish (SiteChannel i) (channel_topic MQTT_BASE entry)
                                   (PVal (channel_payload i v)) MQTT_RETAIN o]))
  /\ py_float (lit "0.001") = Some f_0_001
  /\ parse_token (lit "22.500") = Some (VFloat f_22_5)
  /\ parse_token (lit "22.5005") = Some (VFloat f_22_5005)
  /\ parse_token (lit "22.502") = Some (VFloat f_22_502)
  /\ almost_equal f_0_001 (VFloat f_22_5) (VFloat f_22_5005) = true
  /\ almost_equal f_0_001 (VFloat f_22_5) (VFloat f_22_502) = false.
Proof.
  assert (Hex : py_float (lit "0.001") = Some f_0_001
                /\ parse_token (lit "22.500") = Some (VFloat f_22_5)
                /\ parse_token (lit "22.5005") = Some (VFloat f_22_5005)
                /\ parse_token (lit "22.502") = Some (VFloat f_22_502)
                /\ almost_equal f_0_001 (VFloat f_22_5) (VFloat f_22_5005) = true
                /\ almost_equal f_0_001 (VFloat f_22_5) (VFloat f_22_502) = false).
  { repeat split; vm_compute; reflexivity. }
  split.
  { intros st values Hnr.
    destruct (process_values_spec values 0 st Hnr) as [new [st' [Hrun [Htr [_ [_ Hres]]]]]].
    exists new, st'. split; [exact Hrun|]. split; [exact Htr|].
    intros i v entry Hi Hlook payload.
    pose proof (Hres i (Some v) Hi) as H. cbn [Nat.add] in H.
    unfold index_result in H. rewrite Hlook in H. cbv zeta in H. fold payload in H.
    unfold unchanged in H.
    destruct (last_values st !! i) as [c|] eqn:Hc.
    - destruct (almost_equal FLOAT_EPS c payload) eqn:Ha.
      + destruct H as [Hs _]. split; [left; exact Hs|].
        rewrite Hs. split; [congruence|].
        intros [Hn|[c' [Hc' Hf]]]; [discriminate|congruence].
      + destruct H as [[o [_ Hs]] _]. split; [right; exists o; exact Hs|].
        rewrite Hs. split; [|discriminate].
        intros _. right. exists c. split; [reflexivity | exact Ha].
    - destruct H as [[o [_ Hs]] _]. split; [right; exists o; exact Hs|].
      rewrite Hs. split; [|discriminate]. intros _. left. reflexivity. }
  split; [exact almost_equal_exact|].
  split.
  { intros a b x y Hf Hx Hy. rewrite (almost_equal_floats a b x y Hf Hx Hy).
    split; [exact (fun H => H) | apply fleb_not_fltb]. }
  split; [|exact Hex].
  intros st values Hnr.
  destruct (process_values_spec values 0 st Hnr)
    as [new1 [st1 [Hrun1 [Htr1 [Hnr1 [_ Hres1]]]]]].
  destruct (process_values_spec values 0 st1 Hnr1)
    as [new2 [st2 [Hrun2 [Htr2 [_ [_ Hres2]]]]]].
  exists new1, st1, new2, st2.
  split; [exact Hrun1|]. split; [exact Htr1|].
  split; [exact Hrun2|]. split; [exact Htr2|].
  intros i v entry Hi Hlook Hsteady.
  pose proof (Hres1 i (Some v) Hi) as H1. pose proof (Hres2 i (Some v) Hi) as H2.
  cbn [Nat.add] in H1, H2. unfold index_result in H1, H2.
  rewrite Hlook in H1, H2. cbv zeta in H1, H2.
  set (payload := channel_payload i v) in *.
  assert (Hheld : unchanged FLOAT_EPS (last_values st1) i payload = true).
  { unfold unchanged in *.
    destruct (match last_values st !! i with
              | Some l => almost_equal FLOAT_EPS l payload
              | None => false
              end) eqn:Hun.
    - destruct H1 as [_ ->]. exact Hun.
    - destruct H1 as [_ ->]. apply almost_equal_self. exact Hsteady. }
  rewrite Hheld in H2. destruct H2 as [Hs2 _].
  split; [exact Hs2|].
  intros Hnone. unfold unchanged in H1. rewrite Hnone in H1.
  destruct H1 as [[o [_ Hs1]] _]. exists o.
  rewrite site_events_app, Hs1, Hs2. reflexivity.
Qed.

End ReadLoop.

Lemma change_filter_rule_witness :
  exists new st',
    process_values example_channel_map (lit "nano_pk") f_0_001 true 0
      [Some (VInt 3); Some (VFloat f_22_5)] Bridge_running = (Ok tt, st')
    /\ w_trace st' = w_trace Bridge_running ++ new
    /\ site_events 1 new <> [].
Proof.
  destruct (proj1 (change_filter_rule example_channel_map (lit "nano_pk") f_0_001 true)
              Bridge_running [Some (VInt 3); Some (VFloat f_22_5)])
    as [new [st' [Hrun [Htr Hres]]]].
  - constructor.
  - exists new, st'. split; [exact Hrun|]. split; [exact Htr|].
    apply (Hres 1%nat (VFloat f_22_5)
             {| e_alias := lit "kessel"; e_mqtt_name := Some (lit "kessel_temp");
                e_label := Some (lit "Kesseltemperatur"); e_unit := Some (lit "°C") |});
      [reflexivity | reflexivity |].
    left. reflexivity.
Defined.

(** Two runs against the claim as the design document words it.  The
    line ["pm 3 1.0e999"] read twice in a row, with the default
    tolerance: the value of channel 1, the float infinity, is published
    both times, since [inf - inf] is not a number and is not below the
    tolerance.  And the line ["pm 3 45.0"] on an empty cache when the
    call of [publish] for channel 0 raises: channel 1 has a value, an
    entry and nothing cached, and is not published. *)
Lemma change_filter_counterexample :
  let body := loop_body example_channel_map (lit "nano_pk") f_0_001 true in
  let inf := PVal (VFloat (S754_infinity false)) in
  (parse_pm_line (lit "pm 3 1.0e999")
   = Some [Some (VInt 3); Some (VFloat (S754_infinity false))]
   /\ exists st1 st2,
        body (ReadData (lit "pm 3 1.0e999")) Bridge_running = (Ok tt, st1)
        /\ body (ReadData (lit "pm 3 1.0e999")) st1 = (Ok tt, st2)
        /\ publishes_of (w_trace st2)
           = [ (SiteChannel 0, lit "nano_pk/status", PVal (VStr (lit "Kessel Start")), true);
               (SiteChannel 1, lit "nano_pk/kessel_temp", inf, true);
               (SiteChannel 1, lit "nano_pk/kessel_temp", inf, true) ])
  /\ (parse_pm_line (lit "pm 3 45.0")
      = Some [Some (VInt 3); Some (VFloat (S754_finite false 6333186975989760 (-47)))]
      /\ channel_lookup example_channel_map 1 <> None
      /\ last_values Bridge_running !! 1%nat = None
      /\ exists st',
           body (ReadData (lit "pm 3 45.0"))
             (with_conns [true] (with_pubs [PubRaises] Bridge_running)) = (Ok tt, st')
           /\ site_events 1 (w_trace st') = []).
Proof.
  split.
  - split; [vm_compute; reflexivity|].
    eexists. eexists. split; [vm_compute; reflexivity|].
    split; vm_compute; reflexivity.
  - split; [vm_compute; reflexivity|].
    split; [discriminate|]. split; [reflexivity|].
    eexists. split; vm_compute; reflexivity.
Qed.

(* ===================================================================== *)
(** * Reconnecting: the [except Exception] block of the loop *)
(* ===================================================================== *)

Lemma try_pass_publish site topic payload retain (st : State) :
  try_pass (publish site topic payload retain) st =
    (Ok tt,
     with_pubs (List.tl (w_pubs st))
       (with_trace
          (fun t => t ++ [EvPublish site topic payload retain (List.hd PubOk (w_pubs st))])
          st)).
Proof.
  unfold try_pass, try_except, publish, ret.
  destruct (List.hd PubOk (w_pubs st)); reflexivity.
Qed.

Lemma try_pass_close (h : Handle) (st : State) :
  tn st = Some h ->
  try_pass close_tn st =
    (Ok tt,
     with_closes (List.tl (w_closes st)) (with_trace (fun t => t ++ [EvClose h]) st)).
Proof.
  intros Htn. unfold try_pass, try_except, close_tn, telnet_close, ret. rewrite Htn.
  destruct (List.hd false (w_closes st)); reflexivity.
Qed.

Lemma reconnect_accepted (base : str) (h : Handle) (n : nat) (rest : list bool) (st : State) :
  tn st = Some h ->
  w_conns st = repeat false n ++ true :: rest ->
  reconnect base st = (Ok tt, reconnected base h n rest st).
Proof.
  intros Htn Hc. unfold reconnect.
  unfold mbind at 1, M_bind, bind at 1. unfold log at 1, emit, modify.
  unfold mbind at 1, bind at 1.
  rewrite (try_pass_close h) by exact Htn.
  unfold mbind at 1, bind at 1. rewrite try_pass_publish.
  unfold mbind at 1, bind at 1. unfold sleep, emit, modify.
  unfold mbind at 1, bind at 1.
  rewrite (connect_accepted _ n rest) by exact Hc.
  unfold mbind at 1, bind at 1. unfold modify.
  rewrite try_pass_publish.
  unfold reconnected, reconnect_events, teardown_events, status_event, ret.
  f_equal. run_state.
Qed.

Lemma reconnect_refused (base : str) (h : Handle) (n : nat) (st : State) :
  tn st = Some h ->
  w_conns st = repeat false n ->
  reconnect base st = (Pending, waiting base h n st).
Proof.
  intros Htn Hc. unfold reconnect.
  unfold mbind at 1, M_bind, bind at 1. unfold log at 1, emit, modify.
  unfold mbind at 1, bind at 1.
  rewrite (try_pass_close h) by exact Htn.
  unfold mbind at 1, bind at 1. rewrite try_pass_publish.
  unfold mbind at 1, bind at 1. unfold sleep, emit, modify.
  unfold mbind at 1, bind at 1.
  rewrite (connect_refused _ n) by exact Hc.
  unfold waiting, teardown_events, status_event.
  f_equal. run_state.
Qed.

Lemma publishes_failed_rounds (n : nat) (delay : Z) :
  publishes_of (failed_rounds n delay) = [].
Proof.
  revert delay. induction n as [|n IH]; intros delay; [reflexivity|].
  cbn [failed_rounds]. unfold publishes_of in *. rewrite omap_app, IH. reflexivity.
Qed.

Lemma publishes_reconnect_events (base : str) (h : Handle) (n : nat) (st : State) :
  publishes_of (reconnect_events base h n st)
  = [ (SiteStatus, MQTT_STATUS base, PVal (VStr (lit "offline")), true);
      (SiteStatus, MQTT_STATUS base, PVal (VStr (lit "online")), true) ].
Proof.
  unfold reconnect_events, publishes_of. rewrite !omap_app.
  change (omap _ (failed_rounds n 1)) with (publishes_of (failed_rounds n 1)).
  rewrite publishes_failed_rounds. reflexivity.
Qed.

(** The [try] block that ends in an exception hands over to the
    [except] block. *)
Lemma loop_body_raised channel_map base eps retain (r : ReadOutcome) (st st1 : State) (e : Exn) :
  read_and_publish channel_map base eps retain r st = (Raise e, st1) ->
  loop_body channel_map base eps retain r st = reconnect base st1.
Proof. intros H. unfold loop_body, try_except. rewrite H. reflexivity. Qed.

Lemma loop_body_returned channel_map base eps retain (r : ReadOutcome) (st st1 : State) :
  read_and_publish channel_map base eps retain r st = (Ok tt, st1) ->
  loop_body channel_map base eps retain r st = (Ok tt, st1).
Proof. intros H. unfold loop_body, try_except. rewrite H. reflexivity. Qed.

Lemma read_failure channel_map base eps retain (st : State) :
  read_and_publish channel_map base eps retain ReadRaises st
  = (Raise ReadError, with_trace (fun t => t ++ [EvRead]) st).
Proof. reflexivity. Qed.

(** C7: when the read of a round fails, the round closes the handle it
    holds, publishes ["offline"] once on the status topic, sleeps 2
    seconds, connects with backoff, publishes ["online"] once, and the
    loop goes on with the next round; an error of [close] or of either
    [publish] changes nothing of this.  The same block runs for any other
    exception of the [try] block. *)
Theorem reconnect_sequence channel_map base eps retain
    (st : State) (h : Handle) (n : nat) (rest : list bool) :
  tn st = Some h ->
  w_conns st = repeat false n ++ true :: rest ->
  exists st' o1 o2,
    loop_body channel_map base eps retain ReadRaises st = (Ok tt, st')
    /\ w_trace st' =
         w_trace st
         ++ [EvRead; EvLog ERROR LogLoopError; EvClose h;
             EvPublish SiteStatus (MQTT_STATUS base) (PVal (VStr (lit "offline"))) true o1;
             EvSleep 2]
         ++ failed_rounds n 1 ++ connected_round
         ++ [EvPublish SiteStatus (MQTT_STATUS base) (PVal (VStr (lit "online"))) true o2]
    /\ publishes_of (drop (length (w_trace st)) (w_trace st'))
       = [ (SiteStatus, MQTT_STATUS base, PVal (VStr (lit "offline")), true);
           (SiteStatus, MQTT_STATUS base, PVal (VStr (lit "online")), true) ]
    /\ tn st' = Some (w_handles st)
    /\ running st' = running st
    /\ last_values st' = last_values st
    /\ w_conns st' = rest
    /\ (running st = true ->
        forall script,
          run_loop channel_map base eps retain (Read ReadRaises :: script) st
          = run_loop channel_map base eps retain script st')
    /\ (forall r st0 e,
          read_and_publish channel_map base eps retain r st0 = (Raise e, st) ->
          loop_body channel_map base eps retain r st0
          = (Ok tt, reconnected base h n rest st)).
Proof.
  intros Htn Hc.
  assert (Hbody : loop_body channel_map base eps retain ReadRaises st
                  = (Ok tt, reconnected base h n rest (after_read st))).
  { rewrite (loop_body_raised _ _ _ _ _ _ _ _ (read_failure _ _ _ _ st)).
    apply reconnect_accepted; [exact Htn | exact Hc]. }
  exists (reconnected base h n rest (after_read st)),
    (List.hd PubOk (w_pubs st)), (List.hd PubOk (List.tl (w_pubs st))).
  split; [exact Hbody|].
  assert (Htr : w_trace (reconnected base h n rest (after_read st))
                = w_trace st ++ [EvRead] ++ reconnect_events base h n (after_read st)).
  { cbn [reconnected w_trace after_read with_trace]. symmetry. apply app_assoc. }
  split; [rewrite Htr; reflexivity|].
  split.
  { rewrite Htr, drop_app_length. unfold publishes_of. rewrite omap_app.
    apply publishes_reconnect_events. }
  split; [reflexivity|]. split; [reflexivity|]. split; [reflexivity|].
  split; [reflexivity|].
  split.
  { intros Hrun script. cbn [run_loop]. rewrite Hrun.
    unfold mbind, M_bind, bind. rewrite Hbody. reflexivity. }
  intros r st0 e Hraise. rewrite (loop_body_raised _ _ _ _ _ _ _ _ Hraise).
  apply reconnect_accepted; [exact Htn | exact Hc].
Qed.

Lemma reconnect_sequence_witness :
  exists st' o1 o2,
    loop_body example_channel_map (lit "nano_pk") f_0_001 true ReadRaises broken_link
    = (Ok tt, st')
    /\ w_trace st' =
         [EvRead; EvLog ERROR LogLoopError; EvClose 0%nat;
          EvPublish SiteStatus (lit "nano_pk/status") (PVal (VStr (lit "offline"))) true o1;
          EvSleep 2;
          EvLog INFO LogTelnetConnecting; EvConnect false;
          EvLog WARNING (LogTelnetRetry 1); EvSleep 1;
          EvLog INFO LogTelnetConnecting; EvConnect true; EvLog INFO LogTelnetConnected;
          EvPublish SiteStatus (lit "nano_pk/status") (PVal (VStr (lit "online"))) true o2].
Proof.
  destruct (reconnect_sequence example_channel_map (lit "nano_pk") f_0_001 true
              broken_link 0%nat 1%nat [] eq_refl eq_refl)
    as [st' [o1 [o2 [Hrun [Htr _]]]]].
  exists st', o1, o2. split; [exact Hrun|]. exact Htr.
Defined.

(* ===================================================================== *)
(** * Failing calls of [publish] in the read loop *)
(* ===================================================================== *)

Lemma site_events_failed_rounds (j n : nat) (delay : Z) :
  site_events j (failed_rounds n delay) = [].
Proof.
  revert delay. induction n as [|n IH]; intros delay; [reflexivity|].
  cbn [failed_rounds]. rewrite site_events_app, IH. reflexivity.
Qed.

Lemma try_pass_close_tn (st : State) : try_pass close_tn st = (Ok tt, closed st).
Proof.
  unfold try_pass, try_except, close_tn, closed, telnet_close, ret.
  destruct (tn st); [|reflexivity].
  destruct (List.hd false (w_closes st)); reflexivity.
Qed.

Lemma closed_frame (st : State) :
  last_values (closed st) = last_values st
  /\ w_conns (closed st) = w_conns st
  /\ exists tail, w_trace (closed st) = w_trace st ++ tail
                  /\ forall j, site_events j tail = [].
Proof.
  unfold closed. destruct (tn st).
  - split; [reflexivity|]. split; [reflexivity|].
    eexists. split; [reflexivity|]. reflexivity.
  - split; [reflexivity|]. split; [reflexivity|].
    exists []. split; [symmetry; apply app_nil_r | reflexivity].
Qed.

(** The [except] block never raises, leaves the cache alone and
    publishes on no channel topic. *)
Lemma reconnect_frame (base : str) (st : State) :
  exists res st' tail,
    reconnect base st = (res, st')
    /\ (res = Ok tt \/ res = Pending)
    /\ last_values st' = last_values st
    /\ w_trace st' = w_trace st ++ tail
    /\ (forall j, site_events j tail = [])
    /\ In (EvLog ERROR LogLoopError) tail.
Proof.
  unfold reconnect.
  unfold mbind at 1, M_bind, bind at 1. unfold log at 1, emit, modify.
  unfold mbind at 1, bind at 1. rewrite try_pass_close_tn.
  unfold mbind at 1, bind at 1. rewrite try_pass_publish.
  unfold mbind at 1, bind at 1. unfold sleep, emit, modify.
  unfold mbind at 1, bind at 1.
  set (st0 := with_trace (fun t => t ++ [EvLog ERROR LogLoopError]) st).
  destruct (closed_frame st0) as [Hlv [Hcs [tail [Htr Htail]]]].
  set (st1 := closed st0) in *.
  match goal with
  | |- context [connect_telnet_with_backoff ?s] => set (st2 := s)
  end.
  assert (H2 : last_values st2 = last_values st
               /\ w_trace st2 = w_trace st
                  ++ [EvLog ERROR LogLoopError] ++ tail
                  ++ [status_event base "offline" (List.hd PubOk (w_pubs st1)); EvSleep 2]).
  { subst st2. cbn [last_values w_trace with_trace with_pubs]. split; [exact Hlv|].
    rewrite Htr. subst st0. cbn [w_trace with_trace]. rewrite <- !app_assoc. reflexivity. }
  destruct H2 as [Hlv2 Htr2]. clearbody st2.
  destruct (conn_script_cases (w_conns st2)) as [[n [rest E]]|E].
  - rewrite (connect_accepted st2 n rest E).
    unfold mbind at 1, bind at 1. unfold modify. rewrite try_pass_publish.
    eexists. eexists. eexists. split; [reflexivity|].
    split; [left; reflexivity|].
    split; [exact Hlv2|].
    cbn [w_trace with_pubs with_trace with_tn with_handles with_conns].
    rewrite Htr2, <- !app_assoc. split; [reflexivity|].
    split; [|left; reflexivity].
    intros j. rewrite !site_events_app, Htail, site_events_failed_rounds. reflexivity.
  - rewrite (connect_refused st2 _ E).
    eexists. eexists. eexists. split; [reflexivity|].
    split; [right; reflexivity|].
    split; [exact Hlv2|].
    cbn [w_trace with_pubs with_trace with_tn with_handles with_conns].
    rewrite Htr2, <- !app_assoc. split; [reflexivity|].
    split; [|left; reflexivity].
    intros j. rewrite !site_events_app, Htail, site_events_failed_rounds. reflexivity.
Qed.

Section Failures.

Variable channel_map : IntDict Entry.
Variable MQTT_BASE : str.
Variable FLOAT_EPS : float.
Variable MQTT_RETAIN : bool.

Lemma channel_outcome_frame (cache1 cache cache' : gmap nat PyVal) (ev : Event)
    (new : list Event) (res : Res unit) (j : nat) :
  cache1 !! j = cache !! j ->
  is_site j ev = false ->
  channel_outcome cache1 cache' new res j ->
  channel_outcome cache cache' (ev :: new) res j.
Proof.
  intros Hc Hev. unfold channel_outcome, site_events.
  cbn [List.filter]. rewrite Hev, Hc. exact (fun H => H).
Qed.

Lemma process_values_any (values : list (option PyVal)) :
  forall (idx : nat) (st : State),
    exists new st' res,
      process_values channel_map MQTT_BASE FLOAT_EPS MQTT_RETAIN idx values st = (res, st')
      /\ (res = Ok tt \/ res = Raise PublishError)
      /\ w_trace st' = w_trace st ++ new
      /\ same_link st st'
      /\ (forall j, (j < idx)%nat ->
            site_events j new = [] /\ last_values st' !! j = last_values st !! j)
      /\ (forall j, channel_outcome (last_values st) (last_values st') new res j).
Proof.
  induction values as [|val rest IH]; intros idx st.
  - exists [], st, (Ok tt). split; [reflexivity|]. split; [left; reflexivity|].
    split; [symmetry; apply app_nil_r|]. split; [repeat split|].
    split; [intros j _; split; reflexivity|].
    intros j. left. split; reflexivity.
  - cbn [process_values]. unfold mbind, M_bind, bind.
    rewrite publish_value_cases.
    assert (Hskip :
      exists new st' res,
        process_values channel_map MQTT_BASE FLOAT_EPS MQTT_RETAIN (S idx) rest st = (res, st')
        /\ (res = Ok tt \/ res = Raise PublishError)
        /\ w_trace st' = w_trace st ++ new
        /\ same_link st st'
        /\ (forall j, (j < idx)%nat ->
              site_events j new = [] /\ last_values st' !! j = last_values st !! j)
        /\ (forall j, channel_outcome (last_values st) (last_values st') new res j)).
    { destruct (IH (S idx) st) as [new [st' [res [Hrun [Hres [Htr [Hlink [Hframe Hout]]]]]]]].
      exists new, st', res. repeat (split; [assumption|]).
      split; [|exact Hout]. intros j Hj. apply Hframe. lia. }
    destruct (channel_lookup channel_map idx) as [entry|]; [|exact Hskip].
    destruct val as [v|]; [|exact Hskip].
    cbv zeta. set (payload := channel_payload idx v).
    destruct (unchanged FLOAT_EPS (last_values st) idx payload); [exact Hskip|].
    clear Hskip.
    assert (Hev : forall j, j <> idx ->
              is_site j (value_event MQTT_BASE MQTT_RETAIN idx entry payload st) = false).
    { intros j Hj. unfold value_event. cbn [is_site]. apply Nat.eqb_neq. congruence. }
    destruct (List.hd PubOk (w_pubs st)) eqn:Hhd.
    1, 2:
      set (st1 := after_record MQTT_BASE MQTT_RETAIN idx entry payload st);
      destruct (IH (S idx) st1) as [new [st' [res [Hrun [Hres [Htr [Hlink [Hframe Hout]]]]]]]];
      exists (value_event MQTT_BASE MQTT_RETAIN idx entry payload st :: new), st', res;
      (split; [exact Hrun|]); (split; [exact Hres|]);
      (split; [rewrite Htr; cbn [st1 after_record after_publish w_trace with_trace
                                  with_pubs with_last_values];
               rewrite <- app_assoc; reflexivity|]);
      (split; [exact Hlink|]);
      (split;
       [intros j Hj; destruct (Hframe j) as [Hs Hc]; [lia|];
        split;
        [unfold site_events in *; cbn [List.filter]; rewrite Hev by lia; exact Hs
        |rewrite Hc; apply lookup_insert_ne; lia]
       |]);
      intros j; destruct (Nat.eq_dec j idx) as [->|Hne];
      [ destruct (Hframe idx) as [Hs Hc]; [lia|];
        right; left;
        exists (channel_topic MQTT_BASE entry), payload, MQTT_RETAIN,
          (List.hd PubOk (w_pubs st));
        (split; [rewrite Hhd; discriminate|]);
        (split;
         [unfold site_events in *; unfold value_event at 1; cbn [List.filter is_site];
          rewrite Nat.eqb_refl, Hs; reflexivity
         |rewrite Hc; apply lookup_insert_eq])
      | apply (channel_outcome_frame (last_values st1));
        [apply lookup_insert_ne; congruence | apply Hev; exact Hne | apply Hout] ].
    exists [value_event MQTT_BASE MQTT_RETAIN idx entry payload st],
      (after_publish MQTT_BASE MQTT_RETAIN idx entry payload st), (Raise PublishError).
    split; [reflexivity|]. split; [right; reflexivity|].
    split; [reflexivity|]. split; [repeat split|].
    split.
    + intros j Hj. split; [|reflexivity].
      unfold site_events. cbn [List.filter]. rewrite Hev by lia. reflexivity.
    + intros j. destruct (Nat.eq_dec j idx) as [->|Hne].
      * right. right.
        exists (channel_topic MQTT_BASE entry), payload, MQTT_RETAIN.
        split; [|split; reflexivity].
        unfold site_events, value_event. cbn [List.filter is_site].
        rewrite Nat.eqb_refl, Hhd. reflexivity.
      * left. split; [|reflexivity].
        unfold site_events. cbn [List.filter]. rewrite Hev by exact Hne. reflexivity.
Qed.

Lemma read_and_publish_any (r : ReadOutcome) (st : State) :
  exists new st1 res,
    read_and_publish channel_map MQTT_BASE FLOAT_EPS MQTT_RETAIN r st = (res, st1)
    /\ (res = Ok tt \/ res = Raise ReadError \/ res = Raise PublishError)
    /\ w_trace st1 = w_trace st ++ EvRead :: new
    /\ same_link st st1
    /\ (forall j, channel_outcome (last_values st) (last_values st1) new res j).
Proof.
  assert (Hquiet : forall res,
            res = Ok tt \/ res = Raise ReadError ->
            exists new st1 res',
              (res, after_read st) = (res', st1)
              /\ (res' = Ok tt \/ res' = Raise ReadError \/ res' = Raise PublishError)
              /\ w_trace st1 = w_trace st ++ EvRead :: new
              /\ same_link st st1
              /\ (forall j, channel_outcome (last_values st) (last_values st1) new res' j)).
  { intros res Hres. exists [], (after_read st), res.
    split; [reflexivity|]. split; [tauto|]. split; [reflexivity|].
    split; [repeat split|]. intros j. left. split; reflexivity. }
  unfold read_and_publish, read_until.
  destruct r as [| |text].
  - apply (Hquiet (Raise ReadError)). right. reflexivity.
  - apply (Hquiet (Ok tt)). left. reflexivity.
  - unfold mbind, M_bind, bind, emit, modify, mret, M_ret, ret.
    fold (after_read st).
    destruct (strip text) as [|c line]; [apply (Hquiet (Ok tt)); left; reflexivity|].
    destruct (parse_pm_line (c :: line)) as [[|val values]|];
      [apply (Hquiet (Ok tt)); left; reflexivity | |
       apply (Hquiet (Ok tt)); left; reflexivity].
    destruct (process_values_any (val :: values) 0 (after_read st))
      as [new [st1 [res [Hrun [Hres [Htr [Hlink [_ Hout]]]]]]]].
    exists new, st1, res. split; [exact Hrun|]. split; [tauto|].
    split; [rewrite Htr; cbn [after_read w_trace with_trace];
            rewrite <- app_assoc; reflexivity|].
    split; [exact Hlink | exact Hout].
Qed.

Lemma loop_body_any (r : ReadOutcome) (st : State) :
  exists new st' res,
    loop_body channel_map MQTT_BASE FLOAT_EPS MQTT_RETAIN r st = (res, st')
    /\ (res = Ok tt \/ res = Pending)
    /\ w_trace st' = w_trace st ++ new
    /\ (forall j, round_outcome (last_values st) (last_values st') new j).
Proof.
  destruct (read_and_publish_any r st) as [new [st1 [res [Hrun [Hres [Htr [_ Hout]]]]]]].
  destruct (reconnect_frame MQTT_BASE st1)
    as [res2 [st2 [tail [Hrec [Hres2 [Hlv [Htr2 [Htail Hlogged]]]]]]]].
  assert (Hhandled : forall e, res = Raise e ->
            exists new' st' res',
              loop_body channel_map MQTT_BASE FLOAT_EPS MQTT_RETAIN r st = (res', st')
              /\ (res' = Ok tt \/ res' = Pending)
              /\ w_trace st' = w_trace st ++ new'
              /\ (forall j, round_outcome (last_values st) (last_values st') new' j)).
  { intros e He. subst res.
    exists ((EvRead :: new) ++ tail), st2, res2.
    split; [rewrite (loop_body_raised _ _ _ _ _ _ _ _ Hrun); exact Hrec|].
    split; [exact Hres2|].
    split; [rewrite Htr2, Htr; symmetry; apply app_assoc|].
    assert (Hlog : In (EvLog ERROR LogLoopError) ((EvRead :: new) ++ tail)).
    { apply in_or_app. right. exact Hlogged. }
    intros j. unfold round_outcome. rewrite Hlv, site_events_app, Htail, app_nil_r.
    change (site_events j (EvRead :: new)) with (site_events j new).
    destruct (Hout j) as [H|[H|[topic [payload [retain [Hs [Hc _]]]]]]].
    - left. exact H.
    - right. left. exact H.
    - right. right. exists topic, payload, retain.
      split; [exact Hs|]. split; [exact Hc | exact Hlog]. }
  destruct Hres as [->|[->| ->]]; [|apply (Hhandled ReadError); reflexivity
                                   |apply (Hhandled PublishError); reflexivity].
  exists (EvRead :: new), st1, (Ok tt).
  split; [apply loop_body_returned; exact Hrun|].
  split; [left; reflexivity|]. split; [exact Htr|].
  intros j. unfold round_outcome.
  change (site_events j (EvRead :: new)) with (site_events j new).
  destruct (Hout j) as [H|[H|[topic [payload [retain [_ [_ H]]]]]]].
  - left. exact H.
  - right. left. exact H.
  - discriminate H.
Qed.

Lemma in_site_events (j : nat) (e : Event) (t : list Event) :
  In e (site_events j t) <-> In e t /\ is_site j e = true.
Proof. apply List.filter_In. Qed.

(** C5, as the code has it: the cache entry of an index is written at
    one place only, line 227, right after the call of [publish] for the
    new value of that index has returned, whatever status the call
    reports; when the call raises, the entry is left as it was.  No other
    part of a round of the loop writes the cache. *)
Theorem cache_written_after_publish_returns :
  (forall idx val st,
      publish_value channel_map MQTT_BASE FLOAT_EPS MQTT_RETAIN idx val st = (Ok tt, st)
      \/ (exists entry v,
            let payload := channel_payload idx v in
            let st' := after_record MQTT_BASE MQTT_RETAIN idx entry payload st in
            val = Some v
            /\ List.hd PubOk (w_pubs st) <> PubRaises
            /\ publish_value channel_map MQTT_BASE FLOAT_EPS MQTT_RETAIN idx val st
               = (Ok tt, st')
            /\ w_trace st' = w_trace st
                 ++ [EvPublish (SiteChannel idx) (channel_topic MQTT_BASE entry)
                       (PVal payload) MQTT_RETAIN (List.hd PubOk (w_pubs st))]
            /\ last_values st' = <[idx := payload]> (last_values st))
      \/ (exists entry v,
            let payload := channel_payload idx v in
            let st' := after_publish MQTT_BASE MQTT_RETAIN idx entry payload st in
            val = Some v
            /\ publish_value channel_map MQTT_BASE FLOAT_EPS MQTT_RETAIN idx val st
               = (Raise PublishError, st')
            /\ w_trace st' = w_trace st
                 ++ [EvPublish (SiteChannel idx) (channel_topic MQTT_BASE entry)
                       (PVal payload) MQTT_RETAIN PubRaises]
            /\ last_values st' = last_values st))
  /\ (forall r st res st',
        loop_body channel_map MQTT_BASE FLOAT_EPS MQTT_RETAIN r st = (res, st') ->
        exists new,
          w_trace st' = w_trace st ++ new
          /\ forall j,
               (last_values st' !! j <> last_values st !! j ->
                exists topic payload retain o,
                  o <> PubRaises
                  /\ In (EvPublish (SiteChannel j) topic (PVal payload) retain o) new
                  /\ last_values st' !! j = Some payload)
               /\ (forall topic payload retain,
                     In (EvPublish (SiteChannel j) topic payload retain PubRaises) new ->
                     last_values st' !! j = last_values st !! j)).
Proof.
  split.
  { intros idx val st. rewrite publish_value_cases.
    destruct (channel_lookup channel_map idx) as [entry|]; [|left; reflexivity].
    destruct val as [v|]; [|left; reflexivity].
    cbv zeta.
    destruct (unchanged FLOAT_EPS (last_values st) idx (channel_payload idx v));
      [left; reflexivity|].
    right.
    destruct (List.hd PubOk (w_pubs st)) eqn:Hhd.
    - left. exists entry, v. cbv zeta.
      split; [reflexivity|]. split; [discriminate|]. split; [reflexivity|].
      split; [|reflexivity].
      cbn [after_record after_publish w_trace with_trace with_pubs with_last_values].
      unfold value_event. rewrite Hhd. reflexivity.
    - left. exists entry, v. cbv zeta.
      split; [reflexivity|]. split; [discriminate|]. split; [reflexivity|].
      split; [|reflexivity].
      cbn [after_record after_publish w_trace with_trace with_pubs with_last_values].
      unfold value_event. rewrite Hhd. reflexivity.
    - right. exists entry, v. cbv zeta.
      split; [reflexivity|]. split; [reflexivity|].
      split; [|reflexivity].
      cbn [after_publish w_trace with_trace with_pubs].
      unfold value_event. rewrite Hhd. reflexivity. }
  intros r st res st' Hrun.
  destruct (loop_body_any r st) as [new [st2 [res2 [Hrun2 [_ [Htr Hout]]]]]].
  rewrite Hrun in Hrun2. injection Hrun2 as -> ->.
  exists new. split; [exact Htr|].
  intros j.
  destruct (Hout j) as [[Hs Hc]|[[topic [payload [retain [o [Ho [Hs Hc]]]]]]
                                |[topic [payload [retain [Hs [Hc _]]]]]]].
  - split; [intros Hne; contradiction|].
    intros topic payload retain Hin.
    assert (Hsite : In (EvPublish (SiteChannel j) topic payload retain PubRaises)
                      (site_events j new)).
    { apply in_site_events. split; [exact Hin|]. cbn [is_site]. apply Nat.eqb_refl. }
    rewrite Hs in Hsite. destruct Hsite.
  - split.
    + intros _. exists topic, payload, retain, o. split; [exact Ho|].
      split; [|exact Hc].
      apply (in_site_events j). rewrite Hs. left. reflexivity.
    + intros topic' payload' retain' Hin.
      assert (Hsite : In (EvPublish (SiteChannel j) topic' payload' retain' PubRaises)
                        (site_events j new)).
      { apply in_site_events. split; [exact Hin|]. cbn [is_site]. apply Nat.eqb_refl. }
      rewrite Hs in Hsite. destruct Hsite as [E|[]]. congruence.
  - split; [intros Hne; contradiction|].
    intros _ _ _ _. exact Hc.
Qed.

(** C4, as the code has it: a call of [publish] for a channel value that
    returns, whatever status it reports, is not logged and the line goes
    on with the next value; a call that raises ends the line, the values
    after it are skipped, and the [except] block of the loop runs as for
    a failed read: log entry, close, ["offline"], pause, reconnect,
    ["online"].  Either way the round ends without an exception and the
    loop goes on. *)
Theorem publish_failure_handling :
  (forall idx entry v rest st,
      channel_lookup channel_map idx = Some entry ->
      unchanged FLOAT_EPS (last_values st) idx (channel_payload idx v) = false ->
      List.hd PubOk (w_pubs st) = PubFailed ->
      let st1 := after_record MQTT_BASE MQTT_RETAIN idx entry (channel_payload idx v) st in
      process_values channel_map MQTT_BASE FLOAT_EPS MQTT_RETAIN idx (Some v :: rest) st
      = process_values channel_map MQTT_BASE FLOAT_EPS MQTT_RETAIN (S idx) rest st1
      /\ w_trace st1 = w_trace st
           ++ [EvPublish (SiteChannel idx) (channel_topic MQTT_BASE entry)
                 (PVal (channel_payload idx v)) MQTT_RETAIN PubFailed]
      /\ same_link st st1)
  /\ (forall idx entry v rest st,
        channel_lookup channel_map idx = Some entry ->
        unchanged FLOAT_EPS (last_values st) idx (channel_payload idx v) = false ->
        List.hd PubOk (w_pubs st) = PubRaises ->
        let st1 := after_publish MQTT_BASE MQTT_RETAIN idx entry (channel_payload idx v) st in
        process_values channel_map MQTT_BASE FLOAT_EPS MQTT_RETAIN idx (Some v :: rest) st
        = (Raise PublishError, st1)
        /\ w_trace st1 = w_trace st
             ++ [EvPublish (SiteChannel idx) (channel_topic MQTT_BASE entry)
                   (PVal (channel_payload idx v)) MQTT_RETAIN PubRaises])
  /\ (forall text val values st,
        parse_pm_line (strip text) = Some (val :: values) ->
        read_and_publish channel_map MQTT_BASE FLOAT_EPS MQTT_RETAIN (ReadData text) st
        = process_values channel_map MQTT_BASE FLOAT_EPS MQTT_RETAIN 0 (val :: values)
            (after_read st))
  /\ (forall r st st1 h n rest,
        read_and_publish channel_map MQTT_BASE FLOAT_EPS MQTT_RETAIN r st
        = (Raise PublishError, st1) ->
        tn st1 = Some h ->
        w_conns st1 = repeat false n ++ true :: rest ->
        loop_body channel_map MQTT_BASE FLOAT_EPS MQTT_RETAIN r st
        = (Ok tt, reconnected MQTT_BASE h n rest st1)
        /\ w_trace (reconnected MQTT_BASE h n rest st1)
           = w_trace st1
             ++ [EvLog ERROR LogLoopError; EvClose h;
                 EvPublish SiteStatus (MQTT_STATUS MQTT_BASE) (PVal (VStr (lit "offline")))
                   true (List.hd PubOk (w_pubs st1));
                 EvSleep 2]
             ++ failed_rounds n 1 ++ connected_round
             ++ [EvPublish SiteStatus (MQTT_STATUS MQTT_BASE) (PVal (VStr (lit "online")))
                   true (List.hd PubOk (List.tl (w_pubs st1)))])
  /\ (forall r st res st',
        loop_body channel_map MQTT_BASE FLOAT_EPS MQTT_RETAIN r st = (res, st') ->
        res = Ok tt \/ res = Pending).
Proof.
  split.
  { intros idx entry v rest st Hlook Hun Hhd st1.
    split; [|split].
    - cbn [process_values]. unfold mbind, M_bind, bind.
      rewrite publish_value_cases, Hlook. cbv zeta. rewrite Hun, Hhd. reflexivity.
    - subst st1.
      cbn [after_record after_publish w_trace with_trace with_pubs with_last_values].
      unfold value_event. rewrite Hhd. reflexivity.
    - repeat split. }
  split.
  { intros idx entry v rest st Hlook Hun Hhd st1.
    split.
    - cbn [process_values]. unfold mbind, M_bind, bind.
      rewrite publish_value_cases, Hlook. cbv zeta. rewrite Hun, Hhd. reflexivity.
    - subst st1. cbn [after_publish w_trace with_trace with_pubs].
      unfold value_event. rewrite Hhd. reflexivity. }
  split.
  { intros text val values st Hparse.
    unfold read_and_publish, read_until.
    unfold mbind, M_bind, bind, emit, modify, mret, M_ret, ret.
    fold (after_read st).
    destruct (strip text) as [|c line]; [discriminate Hparse|].
    rewrite Hparse. reflexivity. }
  split.
  { intros r st st1 h n rest Hraise Htn Hc.
    split; [|reflexivity].
    rewrite (loop_body_raised _ _ _ _ _ _ _ _ Hraise).
    apply reconnect_accepted; [exact Htn | exact Hc]. }
  intros r st res st' Hrun.
  destruct (loop_body_any r st) as [new [st2 [res2 [Hrun2 [Hres _]]]]].
  rewrite Hrun in Hrun2. injection Hrun2 as -> ->. exact Hres.
Qed.

End Failures.

Lemma cache_written_after_publish_returns_witness :
  exists res st' new,
    loop_body example_channel_map (lit "nano_pk") f_0_001 true
      (ReadData (lit "pm 3 45.0")) (with_pubs [PubOk; PubRaises] Bridge_running)
    = (res, st')
    /\ w_trace st' = w_trace (with_pubs [PubOk; PubRaises] Bridge_running) ++ new
    /\ (forall topic payload retain,
          In (EvPublish (SiteChannel 1) topic payload retain PubRaises) new ->
          last_values st' !! 1%nat = None).
Proof.
  destruct (loop_body example_channel_map (lit "nano_pk") f_0_001 true
              (ReadData (lit "pm 3 45.0")) (with_pubs [PubOk; PubRaises] Bridge_running))
    as [res st'] eqn:Hrun.
  destruct (proj2 (cache_written_after_publish_returns
                     example_channel_map (lit "nano_pk") f_0_001 true)
              _ _ _ _ Hrun) as [new [Htr Hall]].
  exists res, st', new. split; [reflexivity|]. split; [exact Htr|].
  intros topic payload retain Hin.
  apply (proj2 (Hall 1%nat) topic payload retain Hin).
Defined.

(** A call of [publish] that returns an error status: the line ["pm 3"]
    on an empty cache.  The label is cached although it was not sent, and
    the same line read again does not publish it. *)
Lemma cache_written_after_failed_publish_counterexample :
  let st := with_pubs [PubFailed] Bridge_running in
  let body := loop_body example_channel_map (lit "nano_pk") f_0_001 true
                (ReadData (lit "pm 3")) in
  last_values st !! 0%nat = None
  /\ exists st1 st2,
       body st = (Ok tt, st1)
       /\ w_trace st1
          = [EvRead;
             EvPublish (SiteChannel 0) (lit "nano_pk/status")
               (PVal (VStr (lit "Kessel Start"))) true PubFailed]
       /\ last_values st1 !! 0%nat = Some (VStr (lit "Kessel Start"))
       /\ body st1 = (Ok tt, st2)
       /\ w_trace st2 = w_trace st1 ++ [EvRead].
Proof.
  split; [reflexivity|].
  eexists. eexists. split; [vm_compute; reflexivity|].
  split; [vm_compute; reflexivity|].
  split; [vm_compute; reflexivity|].
  split; vm_compute; reflexivity.
Qed.

Lemma publish_failure_handling_witness :
  process_values example_channel_map (lit "nano_pk") f_0_001 true 0
    [Some (VInt 3); Some (VFloat f_45_0)] (with_pubs [PubRaises] Bridge_running)
  = (Raise PublishError,
     after_publish (lit "nano_pk") true 0
       {| e_alias := lit "status"; e_mqtt_name := None;
          e_label := Some (lit "Kesselstatus"); e_unit := None |}
       (channel_payload 0 (VInt 3)) (with_pubs [PubRaises] Bridge_running)).
Proof.
  apply (proj1 (proj2 (publish_failure_handling
                         example_channel_map (lit "nano_pk") f_0_001 true))
           0%nat _ (VInt 3) [Some (VFloat f_45_0)] (with_pubs [PubRaises] Bridge_running)).
  - reflexivity.
  - reflexivity.
  - reflexivity.
Defined.

(** The line ["pm 3 45.0 2.1"] when the call of [publish] for channel 1
    raises: channel 2 is not published, the telnet handle is closed and
    a new connection is made. *)
Lemma publish_raise_reconnects_counterexample :
  let st := with_conns [true] (with_pubs [PubOk; PubRaises] Bridge_running) in
  parse_pm_line (lit "pm 3 45.0 2.1")
  = Some [Some (VInt 3); Some (VFloat f_45_0); Some (VFloat f_2_1)]
  /\ channel_lookup example_channel_map 2 <> None
  /\ exists st',
       loop_body example_channel_map (lit "nano_pk") f_0_001 true
         (ReadData (lit "pm 3 45.0 2.1")) st = (Ok tt, st')
       /\ w_trace st'
          = [EvRead;
             EvPublish (SiteChannel 0) (lit "nano_pk/status")
               (PVal (VStr (lit "Kessel Start"))) true PubOk;
             EvPublish (SiteChannel 1) (lit "nano_pk/kessel_temp")
               (PVal (VFloat f_45_0)) true PubRaises;
             EvLog ERROR LogLoopError;
             EvClose 0%nat;
             EvPublish SiteStatus (lit "nano_pk/status") (PVal (VStr (lit "offline")))
               true PubOk;
             EvSleep 2;
             EvLog INFO LogTelnetConnecting; EvConnect true; EvLog INFO LogTelnetConnected;
             EvPublish SiteStatus (lit "nano_pk/status") (PVal (VStr (lit "online")))
               true PubOk]
       /\ tn st' = Some 1%nat.
Proof.
  split; [vm_compute; reflexivity|].
  split; [discriminate|].
  eexists. split; [vm_compute; reflexivity|].
  split; vm_compute; reflexivity.
Qed.

(* ===================================================================== *)
(** * More about [almost_equal] *)
(* ===================================================================== *)

(** The sign given to [binary_round] only shows in the sign of the
    result. *)
Lemma SFabs_binary_round (s : bool) (m : positive) (e : Z) :
  SFabs (binary_round prec emax s m e) = SFabs (binary_round prec emax false m e).
Proof.
  unfold binary_round. destruct (shl_align m e _) as [mz ez].
  unfold binary_round_aux.
  destruct (shr_fexp prec emax (Z.pos mz) ez loc_Exact) as [mrs e'].
  destruct (shr_fexp prec emax _ e' loc_Exact) as [mrs'' e''].
  destruct (shr_m mrs''); try reflexivity.
  destruct (e'' <=? emax - prec); reflexivity.
Qed.

Lemma SFabs_binary_normalize_opp (m e : Z) :
  SFabs (binary_normalize prec emax (- m) e false)
  = SFabs (binary_normalize prec emax m e false).
Proof.
  destruct m as [|p|p]; cbn [Z.opp binary_normalize]; [reflexivity| |].
  - apply SFabs_binary_round.
  - symmetry. apply SFabs_binary_round.
Qed.

(** The distance of two floats does not depend on their order. *)
Lemma fabs_fsub_sym (x y : float) : fabs (fsub x y) = fabs (fsub y x).
Proof.
  unfold fabs, fsub.
  destruct x as [sx|sx| |sx mx ex], y as [sy|sy| |sy my ey];
    try reflexivity;
    try (destruct sx, sy; reflexivity);
    try (destruct sx; reflexivity);
    try (destruct sy; reflexivity).
  cbn [SFsub]. rewrite (Z.min_comm ey ex).
  rewrite <- SFabs_binary_normalize_opp. f_equal. f_equal. lia.
Qed.

Lemma str_eqb_sym (a b : str) : str_eqb a b = str_eqb b a.
Proof.
  destruct (str_eqb a b) eqn:H.
  - apply str_eqb_eq in H. subst. symmetry. apply str_eqb_eq. reflexivity.
  - apply str_eqb_neq in H. symmetry. apply str_eqb_neq. congruence.
Qed.

(** X1: [almost_equal] is symmetric: whether a cached value and a new
    value count as unchanged does not depend on which is which. *)
Theorem almost_equal_sym (eps : float) (a b : PyVal) :
  almost_equal eps a b = almost_equal eps b a.
Proof.
  unfold almost_equal. rewrite (orb_comm (is_float b)).
  destruct (is_float a || is_float b).
  - destruct (to_float a) as [x|], (to_float b) as [y|]; try reflexivity.
    rewrite (fabs_fsub_sym x y). reflexivity.
  - destruct a as [x|x|x], b as [y|y|y]; cbn [py_eqb]; try reflexivity.
    + apply Z.eqb_sym.
    + apply str_eqb_sym.
Qed.

(** Nothing that is at least zero is below a tolerance that zero is not
    below. *)
Lemma fltb_fabs_positive (d eps : float) :
  fltb (fabs d) eps = true -> fltb (S754_zero false) eps = true.
Proof.
  unfold fltb, fabs, SFltb.
  destruct d as [sd|sd| |sd md ed], eps as [se|se| |se me ee]; cbn;
    try discriminate; try reflexivity;
    destruct se; try discriminate; try reflexivity.
Qed.

(** X2: with a tolerance that is zero, negative or not a number, no
    comparison that involves a float counts as unchanged, so every float
    value is published again on every line. *)
Theorem almost_equal_needs_positive_tolerance (eps : float) (a b : PyVal) :
  fltb (S754_zero false) eps = false ->
  is_float a || is_float b = true ->
  almost_equal eps a b = false.
Proof.
  intros Heps Hf. unfold almost_equal. rewrite Hf.
  destruct (to_float a) as [x|]; [|reflexivity].
  destruct (to_float b) as [y|]; [|reflexivity].
  destruct (fltb (fabs (fsub x y)) eps) eqn:H; [|reflexivity].
  apply fltb_fabs_positive in H. congruence.
Qed.

Lemma almost_equal_needs_positive_tolerance_witness :
  almost_equal (S754_zero false) (VFloat f_22_5) (VFloat f_22_5) = false.
Proof.
  apply almost_equal_needs_positive_tolerance; reflexivity.
Defined.

(* ===================================================================== *)
(** * Topics *)
(* ===================================================================== *)

Lemma lit_status : lit "/status" = lit "/" ++ lit "status".
Proof. vm_compute. reflexivity. Qed.

(** X3: the topic of a channel is the status topic exactly when the
    channel's published name is ["status"]: the values of such a channel,
    and of no other, land on the topic that carries ["online"] and
    ["offline"].  Two channels share a topic exactly when they share
    their published name. *)
Theorem channel_topic_collisions (base : str) :
  (forall entry,
      channel_topic base entry = MQTT_STATUS base
      <-> entry_mqtt_name entry = lit "status")
  /\ (forall e1 e2,
        channel_topic base e1 = channel_topic base e2
        <-> entry_mqtt_name e1 = entry_mqtt_name e2).
Proof.
  split.
  - intros entry. unfold channel_topic, MQTT_STATUS. rewrite lit_status.
    split.
    + intros H. apply app_inv_head in H. apply app_inv_head in H. exact H.
    + intros ->. reflexivity.
  - intros e1 e2. unfold channel_topic. split.
    + intros H. apply app_inv_head in H. apply app_inv_head in H. exact H.
    + intros ->. reflexivity.
Qed.

Lemma app_cons_neq {A : Type} (p l1 l2 x : list A) (a b : A) :
  a <> b -> (p ++ a :: l1) ++ x <> p ++ b :: l2.
Proof.
  intros Hab H. rewrite <- app_assoc in H. apply app_inv_head in H.
  injection H as H _. exact (Hab H).
Qed.

Lemma sensor_prefix :
  lit "homeassistant/sensor/nano_pk_"
  = lit "homeassistant/" ++ 115%N :: lit "ensor/nano_pk_".
Proof. vm_compute. reflexivity. Qed.

Lemma connectivity_prefix :
  connectivity_config_topic
  = lit "homeassistant/" ++ 98%N :: lit "inary_sensor/nano_pk_status/config".
Proof. vm_compute. reflexivity. Qed.

Lemma sensor_config_topic_apart (entry : Entry) :
  sensor_config_topic entry <> connectivity_config_topic.
Proof.
  unfold sensor_config_topic. rewrite sensor_prefix, connectivity_prefix.
  apply app_cons_neq. discriminate.
Qed.

(** X4: the discovery topic of a sensor is never the discovery topic of
    the connectivity sensor, whatever the channel is called, and two
    sensors share a discovery topic exactly when they share their
    published name. *)
Theorem config_topics_apart :
  (forall entry, sensor_config_topic entry <> connectivity_config_topic)
  /\ (forall e1 e2,
        sensor_config_topic e1 = sensor_config_topic e2
        <-> entry_mqtt_name e1 = entry_mqtt_name e2).
Proof.
  split.
  - exact sensor_config_topic_apart.
  - intros e1 e2. unfold sensor_config_topic. split.
    + intros H. apply app_inv_head in H. apply app_inv_tail in H. exact H.
    + intros ->. reflexivity.
Qed.

(** X5: what discovery announces is what the loop uses: the state topic
    of a channel's descriptor is the topic on which the loop publishes the
    channel's values, and the availability topic of every descriptor,
    like the state topic of the connectivity sensor, is the status topic
    on which ["online"] and ["offline"] are published. *)
Theorem discovery_matches_loop (base : str) (idx : Z) (entry : Entry) :
  json_field (lit "state_topic") (sensor_payload base idx entry)
  = Some (JStr (channel_topic base entry))
  /\ json_field (lit "unique_id") (sensor_payload base idx entry)
     = Some (JStr (lit "nano_pk_" ++ entry_mqtt_name entry))
  /\ json_field (lit "name") (sensor_payload base idx entry)
     = Some (JStr (entry_label entry))
  /\ json_field (lit "availability") (sensor_payload base idx entry)
     = Some (JArr [JObj [ (lit "topic", JStr (MQTT_STATUS base));
                          (lit "payload_available", JStr (lit "online"));
                          (lit "payload_not_available", JStr (lit "offline")) ]])
  /\ json_field (lit "state_topic") (connectivity_payload base)
     = Some (JStr (MQTT_STATUS base))
  /\ json_field (lit "availability") (connectivity_payload base)
     = Some (JArr [JObj [ (lit "topic", JStr (MQTT_STATUS base));
                          (lit "payload_available", JStr (lit "online"));
                          (lit "payload_not_available", JStr (lit "offline")) ]]).
Proof.
  unfold sensor_payload.
  destruct (negb (idx =? 0));
    [destruct (get_device_class (entry_label entry) (entry_unit entry))|];
    repeat split; vm_compute; reflexivity.
Qed.

(* ===================================================================== *)
(** * Lines of the loop: [strip] and [parse_pm_line] together *)
(* ===================================================================== *)

Lemma lstrip_snoc (a : str) (c : char) :
  is_space c = false -> lstrip (a ++ [c]) = lstrip a ++ [c].
Proof.
  intros Hc. induction a as [|x a IH]; simpl.
  - rewrite Hc. reflexivity.
  - destruct (is_space x); [exact IH | reflexivity].
Qed.

Lemma lstrip_head (s : str) (c : char) (l : str) :
  lstrip s = c :: l -> is_space c = false.
Proof.
  induction s as [|x s IH]; simpl; [discriminate|].
  destruct (is_space x) eqn:Hx; [exact IH|].
  intros H. injection H as <- _. exact Hx.
Qed.

(** A stripped line that is not empty starts with a character that is
    not white space. *)
Lemma strip_head (s : str) (c : char) (l : str) :
  strip s = c :: l -> is_space c = false.
Proof.
  unfold strip, rstrip. destruct (lstrip s) as [|x r] eqn:Hs; [discriminate|].
  pose proof (lstrip_head _ _ _ Hs) as Hx.
  cbn [rev]. rewrite (lstrip_snoc _ _ Hx), rev_app_distr. cbn [rev app].
  intros H. injection H as <- _. exact Hx.
Qed.

(** The first token of a text is the run up to the first white space. *)
Lemma split_from_first (s cur : str) :
  cur <> [] ->
  exists run rem rest,
    s = run ++ rem
    /\ split_from cur s = (rev cur ++ run) :: rest
    /\ (rem = [] \/ exists d r, rem = d :: r /\ is_space d = true).
Proof.
  revert cur. induction s as [|c s IH]; intros cur Hcur.
  - exists [], [], []. split; [reflexivity|]. split; [|left; reflexivity].
    rewrite app_nil_r. destruct cur; [contradiction | reflexivity].
  - cbn [split_from]. destruct (is_space c) eqn:Hc.
    + exists [], (c :: s), (split_from [] s). split; [reflexivity|].
      split; [|right; exists c, s; split; [reflexivity | exact Hc]].
      rewrite app_nil_r. destruct cur; [contradiction | reflexivity].
    + destruct (IH (c :: cur)) as [run [rem [rest [Hs [Hsplit Hrem]]]]]; [discriminate|].
      exists (c :: run), rem, rest. split; [rewrite Hs; reflexivity|].
      split; [|exact Hrem].
      rewrite Hsplit. cbn [rev]. rewrite <- app_assoc. reflexivity.
Qed.

Lemma startswith_first (p tok rem : str) :
  Forall (fun c => is_space c = false) p ->
  rem = [] \/ (exists d r, rem = d :: r /\ is_space d = true) ->
  startswith p (tok ++ rem) = startswith p tok.
Proof.
  intros Hp Hrem. revert tok. induction Hp as [|a p Ha Hp IH]; intros tok.
  - destruct tok; reflexivity.
  - destruct tok as [|b tok]; cbn [app startswith].
    + destruct Hrem as [->|[d [r [-> Hd]]]]; [reflexivity|].
      destruct (N.eqb_spec a d) as [->|_]; [congruence | reflexivity].
    + rewrite IH. reflexivity.
Qed.

(** The marker test on a stripped line is the marker test on the first
    token. *)
Lemma startswith_marker_first (text : str) (c : char) (l : str) :
  strip text = c :: l ->
  exists first rest,
    split text = first :: rest
    /\ startswith marker (c :: l) = startswith marker first.
Proof.
  intros Hs. pose proof (strip_head _ _ _ Hs) as Hc.
  rewrite <- (split_strip text), Hs. unfold split. cbn [split_from]. rewrite Hc.
  destruct (split_from_first l [c]) as [run [rem [rest [Hl [Hsplit Hrem]]]]];
    [discriminate|].
  exists (rev [c] ++ run), rest. split; [exact Hsplit|].
  rewrite Hl. change (c :: run ++ rem) with ((c :: run) ++ rem).
  apply startswith_first; [|exact Hrem].
  repeat constructor.
Qed.

(** The [try] block on a text that was read, by the tokens of the text. *)
Lemma read_and_publish_line_values channel_map base eps retain (text : str) (st : State) :
  read_and_publish channel_map base eps retain (ReadData text) st
  = process_values channel_map base eps retain 0 (line_values text) (after_read st).
Proof.
  unfold read_and_publish, read_until, line_values.
  unfold mbind, M_bind, bind, emit, modify, mret, M_ret, ret.
  fold (after_read st).
  destruct (strip text) as [|c l] eqn:Hs.
  - rewrite <- (split_strip text), Hs. reflexivity.
  - destruct (startswith_marker_first text c l Hs) as [first [rest [Hsplit Hm]]].
    rewrite Hsplit, <- Hm.
    assert (Hline : split (c :: l) = first :: rest).
    { rewrite <- Hs, split_strip. exact Hsplit. }
    destruct (startswith marker (c :: l)) eqn:Hstart.
    + destruct rest as [|second more].
      * rewrite parse_pm_line_rejects; [reflexivity|].
        right. right. rewrite Hline. simpl. lia.
      * rewrite parse_pm_line_accepts; [|exact Hstart|rewrite Hline; simpl; lia].
        rewrite Hline. reflexivity.
    + rewrite parse_pm_line_rejects; [reflexivity|].
      right. left. exact Hstart.
Qed.


(* ===================================================================== *)
(** * What a round publishes, whatever [publish] does *)
(* ===================================================================== *)

Section Rounds.

Variable channel_map : IntDict Entry.
Variable MQTT_BASE : str.
Variable FLOAT_EPS : float.
Variable MQTT_RETAIN : bool.

(** The values before index [idx] are done with: a step of the rest of
    the line is a step of the line. *)
Lemma channel_step_shift (cache1 cache cache' : gmap nat PyVal) (val : option PyVal)
    (rest : list (option PyVal)) (new : list Event) (idx j : nat) :
  cache1 !! j = cache !! j ->
  channel_step channel_map MQTT_BASE FLOAT_EPS MQTT_RETAIN cache1 cache'
    (replicate (S idx) None ++ rest) new j ->
  channel_step channel_map MQTT_BASE FLOAT_EPS MQTT_RETAIN cache cache'
    (replicate idx None ++ val :: rest) new j.
Proof.
  intros Hc [[Hs Hk]|[e [[entry [v [o [Hv [Hl [Hun He]]]]]] [Hs Hk]]]].
  - left. split; [exact Hs | congruence].
  - assert (Hj : (idx < j)%nat).
    { destruct (Nat.lt_ge_cases idx j) as [H|H]; [exact H|].
      rewrite lookup_app_l in Hv by (rewrite length_replicate; lia).
      apply lookup_replicate in Hv as [Hv _]. discriminate Hv. }
    right. exists e. split; [|split; [exact Hs|]].
    + exists entry, v, o. split.
      { rewrite lookup_app_r in Hv by (rewrite length_replicate; lia).
        rewrite lookup_app_r by (rewrite length_replicate; lia).
        rewrite length_replicate in *.
        replace (j - idx)%nat with (S (j - S idx)) by lia. exact Hv. }
      split; [exact Hl|]. split; [|exact He].
      unfold unchanged in *. rewrite <- Hc. exact Hun.
    + destruct Hk as [Hk|Hk]; [left; congruence | right; exact Hk].
Qed.

Lemma channel_step_event (cache cache' : gmap nat PyVal)
    (values : list (option PyVal)) (ev : Event) (new : list Event) (j : nat) :
  is_site j ev = false ->
  channel_step channel_map MQTT_BASE FLOAT_EPS MQTT_RETAIN cache cache' values new j ->
  channel_step channel_map MQTT_BASE FLOAT_EPS MQTT_RETAIN cache cache' values (ev :: new) j.
Proof.
  intros Hev. unfold channel_step, site_events. cbn [List.filter]. rewrite Hev.
  exact (fun H => H).
Qed.

Lemma process_values_sound (values : list (option PyVal)) :
  forall (idx : nat) (st : State),
    exists new st' res,
      process_values channel_map MQTT_BASE FLOAT_EPS MQTT_RETAIN idx values st = (res, st')
      /\ w_trace st' = w_trace st ++ new
      /\ (forall j, channel_step channel_map MQTT_BASE FLOAT_EPS MQTT_RETAIN
                      (last_values st) (last_values st')
                      (replicate idx None ++ values) new j).
Proof.
  induction values as [|val rest IH]; intros idx st.
  - exists [], st, (Ok tt). split; [reflexivity|].
    split; [symmetry; apply app_nil_r|].
    intros j. left. split; reflexivity.
  - cbn [process_values]. unfold mbind, M_bind, bind.
    rewrite publish_value_cases.
    assert (Hskip :
      exists new st' res,
        process_values channel_map MQTT_BASE FLOAT_EPS MQTT_RETAIN (S idx) rest st = (res, st')
        /\ w_trace st' = w_trace st ++ new
        /\ (forall j, channel_step channel_map MQTT_BASE FLOAT_EPS MQTT_RETAIN
                        (last_values st) (last_values st')
                        (replicate idx None ++ val :: rest) new j)).
    { destruct (IH (S idx) st) as [new [st' [res [Hrun [Htr Hstep]]]]].
      exists new, st', res. split; [exact Hrun|]. split; [exact Htr|].
      intros j. apply (channel_step_shift (last_values st)); [reflexivity | apply Hstep]. }
    destruct (channel_lookup channel_map idx) as [entry|] eqn:Hlook; [|exact Hskip].
    destruct val as [v|]; [|exact Hskip].
    cbv zeta. set (payload := channel_payload idx v).
    destruct (unchanged FLOAT_EPS (last_values st) idx payload) eqn:Hun; [exact Hskip|].
    clear Hskip.
    assert (Hev : forall j, j <> idx ->
              is_site j (value_event MQTT_BASE MQTT_RETAIN idx entry payload st) = false).
    { intros j Hj. unfold value_event. cbn [is_site]. apply Nat.eqb_neq. congruence. }
    assert (Hcall : called_for channel_map MQTT_BASE FLOAT_EPS MQTT_RETAIN (last_values st)
                      (replicate idx None ++ Some v :: rest) idx
                      (value_event MQTT_BASE MQTT_RETAIN idx entry payload st)).
    { exists entry, v, (List.hd PubOk (w_pubs st)).
      split.
      { rewrite lookup_app_r by (rewrite length_replicate; lia).
        rewrite length_replicate, Nat.sub_diag. reflexivity. }
      split; [exact Hlook|]. split; [exact Hun | reflexivity]. }
    assert (Hret : List.hd PubOk (w_pubs st) <> PubRaises ->
      exists new st' res,
        process_values channel_map MQTT_BASE FLOAT_EPS MQTT_RETAIN (S idx) rest
          (after_record MQTT_BASE MQTT_RETAIN idx entry payload st) = (res, st')
        /\ w_trace st' = w_trace st ++ new
        /\ (forall j, channel_step channel_map MQTT_BASE FLOAT_EPS MQTT_RETAIN
                        (last_values st) (last_values st')
                        (replicate idx None ++ Some v :: rest) new j)).
    { intros Hhd.
      set (st1 := after_record MQTT_BASE MQTT_RETAIN idx entry payload st).
      destruct (IH (S idx) st1) as [new [st' [res [Hrun [Htr Hstep]]]]].
      exists (value_event MQTT_BASE MQTT_RETAIN idx entry payload st :: new), st', res.
      split; [exact Hrun|].
      split.
      { rewrite Htr. cbn [st1 after_record after_publish w_trace with_trace
                            with_pubs with_last_values].
        rewrite <- app_assoc. reflexivity. }
      intros j. destruct (Nat.eq_dec j idx) as [->|Hne].
      - destruct (Hstep idx) as [[Hs Hk]|[e [[entry' [v' [o [Hv _]]]] _]]].
        + right. exists (value_event MQTT_BASE MQTT_RETAIN idx entry payload st).
          split; [exact Hcall|]. split.
          * unfold site_events in *. unfold value_event at 1.
            cbn [List.filter is_site]. rewrite Nat.eqb_refl, Hs. reflexivity.
          * right. exists (channel_topic MQTT_BASE entry), payload, (List.hd PubOk (w_pubs st)).
            split; [reflexivity|]. split; [exact Hhd|].
            rewrite Hk. apply lookup_insert_eq.
        + rewrite lookup_app_l in Hv by (rewrite length_replicate; lia).
          apply lookup_replicate in Hv as [Hv _]. discriminate Hv.
      - apply channel_step_event; [apply Hev; exact Hne|].
        apply (channel_step_shift (last_values st1)); [|apply Hstep].
        apply lookup_insert_ne. congruence. }
    destruct (List.hd PubOk (w_pubs st)) eqn:Hhd;
      [apply Hret; discriminate | apply Hret; discriminate |].
    clear Hret.
    exists [value_event MQTT_BASE MQTT_RETAIN idx entry payload st],
      (after_publish MQTT_BASE MQTT_RETAIN idx entry payload st), (Raise PublishError).
    split; [reflexivity|]. split; [reflexivity|].
    intros j. destruct (Nat.eq_dec j idx) as [->|Hne].
    + right. exists (value_event MQTT_BASE MQTT_RETAIN idx entry payload st).
      split; [exact Hcall|]. split; [|left; reflexivity].
      unfold site_events, value_event. cbn [List.filter is_site].
      rewrite Nat.eqb_refl. reflexivity.
    + left. split; [|reflexivity].
      unfold site_events. cbn [List.filter]. rewrite Hev by exact Hne. reflexivity.
Qed.

Lemma channel_step_tail (cache cache' cache'' : gmap nat PyVal)
    (values : list (option PyVal)) (new tail : list Event) (j : nat) :
  site_events j tail = [] ->
  cache'' !! j = cache' !! j ->
  channel_step channel_map MQTT_BASE FLOAT_EPS MQTT_RETAIN cache cache' values new j ->
  channel_step channel_map MQTT_BASE FLOAT_EPS MQTT_RETAIN cache cache'' values (new ++ tail) j.
Proof.
  intros Ht Hc. unfold channel_step.
  rewrite site_events_app, Ht, app_nil_r, Hc. exact (fun H => H).
Qed.

(** A round of the loop, channel by channel, whatever the calls of
    [publish], [close] and [Telnet] do. *)
Lemma loop_body_sound (r : ReadOutcome) (st : State) :
  exists new st' res,
    loop_body channel_map MQTT_BASE FLOAT_EPS MQTT_RETAIN r st = (res, st')
    /\ w_trace st' = w_trace st ++ new
    /\ (forall j, channel_step channel_map MQTT_BASE FLOAT_EPS MQTT_RETAIN
                    (last_values st) (last_values st') (round_values r) new j).
Proof.
  assert (Hafter : forall res1 st1 new0,
    read_and_publish channel_map MQTT_BASE FLOAT_EPS MQTT_RETAIN r st = (res1, st1) ->
    w_trace st1 = w_trace st ++ EvRead :: new0 ->
    (forall j, channel_step channel_map MQTT_BASE FLOAT_EPS MQTT_RETAIN
                 (last_values st) (last_values st1) (round_values r) new0 j) ->
    exists new st' res,
      loop_body channel_map MQTT_BASE FLOAT_EPS MQTT_RETAIN r st = (res, st')
      /\ w_trace st' = w_trace st ++ new
      /\ (forall j, channel_step channel_map MQTT_BASE FLOAT_EPS MQTT_RETAIN
                      (last_values st) (last_values st') (round_values r) new j)).
  { intros res1 st1 new0 Hrun Htr Hstep.
    assert (Hread : forall j,
              channel_step channel_map MQTT_BASE FLOAT_EPS MQTT_RETAIN
                (last_values st) (last_values st1) (round_values r) (EvRead :: new0) j).
    { intros j. apply channel_step_event; [reflexivity | apply Hstep]. }
    destruct res1 as [[]|e|].
    - exists (EvRead :: new0), st1, (Ok tt).
      split; [apply loop_body_returned; exact Hrun|]. split; [exact Htr | exact Hread].
    - destruct (reconnect_frame MQTT_BASE st1)
        as [res2 [st2 [tail [Hrec [_ [Hlv [Htr2 [Htail _]]]]]]]].
      exists ((EvRead :: new0) ++ tail), st2, res2.
      split; [rewrite (loop_body_raised _ _ _ _ _ _ _ _ Hrun); exact Hrec|].
      split; [rewrite Htr2, Htr; symmetry; apply app_assoc|].
      intros j. apply (channel_step_tail _ (last_values st1));
        [apply Htail | rewrite Hlv; reflexivity | apply Hread].
    - exists (EvRead :: new0), st1, Pending.
      split; [unfold loop_body, try_except; rewrite Hrun; reflexivity|].
      split; [exact Htr | exact Hread]. }
  assert (Hquiet : forall j,
            channel_step channel_map MQTT_BASE FLOAT_EPS MQTT_RETAIN
              (last_values st) (last_values (after_read st)) (round_values r) [] j).
  { intros j. left. split; reflexivity. }
  destruct r as [| |text].
  - apply (Hafter (Raise ReadError) (after_read st) []);
      [reflexivity | reflexivity | exact Hquiet].
  - apply (Hafter (Ok tt) (after_read st) []);
      [reflexivity | reflexivity | exact Hquiet].
  - destruct (process_values_sound (line_values text) 0 (after_read st))
      as [new0 [st1 [res1 [Hrun [Htr Hstep]]]]].
    apply (Hafter res1 st1 new0).
    + rewrite read_and_publish_line_values. exact Hrun.
    + rewrite Htr. cbn [after_read w_trace with_trace]. rewrite <- app_assoc. reflexivity.
    + exact Hstep.
Qed.

End Rounds.


Lemma line_values_numbers (text : str) (j : nat) (v : PyVal) :
  line_values text !! j = Some (Some v) -> is_number v = true.
Proof.
  unfold line_values. destruct (split text) as [|first rest]; [discriminate|].
  destruct (startswith marker first); [|discriminate].
  change (List.map parse_token rest) with (parse_token <$> rest).
  rewrite list_lookup_fmap. destruct (rest !! j) as [tok|]; [|discriminate].
  cbn. unfold parse_token.
  destruct (str_contains (lit ".") tok).
  - destruct (py_float tok); cbn; intros H; [|discriminate].
    injection H as <-. reflexivity.
  - destruct (py_int tok); cbn; intros H; [|discriminate].
    injection H as <-. reflexivity.
Qed.

Lemma round_values_numbers (r : ReadOutcome) (j : nat) (v : PyVal) :
  round_values r !! j = Some (Some v) -> is_number v = true.
Proof.
  destruct r as [| |text]; [discriminate | discriminate | apply line_values_numbers].
Qed.

(** [ZK_STATUS_MAP.get] with the label of code 0 as default gives a
    label of the table. *)
Lemma dict_get_label (v : PyVal) : is_label (VStr (dict_get ZK_STATUS_MAP v Unbekannt)).
Proof.
  unfold dict_get, dict_find.
  destruct (List.find _ ZK_STATUS_MAP) as [[k label]|] eqn:Hfind.
  - apply find_some in Hfind as [Hin _]. exists k, label. split; [exact Hin | reflexivity].
  - exists 0, Unbekannt. split; [left; reflexivity | reflexivity].
Qed.

Lemma channel_payload_ok (j : nat) (v : PyVal) :
  is_number v = true -> payload_ok j (channel_payload j v).
Proof.
  intros Hv. unfold payload_ok, channel_payload.
  destruct (j =? 0)%nat; [apply dict_get_label | exact Hv].
Qed.

(** X8: every message that a round of the loop publishes for a channel
    is of the channel's kind: on channel 0 one of the labels of
    [ZK_STATUS_MAP], on any other channel a number, an [int] or a
    [float], as decoded from the line. *)
Theorem channel_payload_kinds channel_map base eps retain
    (r : ReadOutcome) (st : State) :
  exists new,
    w_trace (snd (loop_body channel_map base eps retain r st)) = w_trace st ++ new
    /\ forall j topic payload retain' o,
         In (EvPublish (SiteChannel j) topic payload retain' o) new ->
         exists p,
           payload = PVal p
           /\ payload_ok j p
           /\ (j = 0%nat -> exists k label, In (k, label) ZK_STATUS_MAP /\ p = VStr label)
           /\ (j <> 0%nat -> (exists z, p = VInt z) \/ (exists f, p = VFloat f)).
Proof.
  destruct (loop_body_sound channel_map base eps retain r st)
    as [new [st' [res [Hrun [Htr Hstep]]]]].
  exists new. rewrite Hrun. split; [exact Htr|].
  intros j topic payload retain' o Hin.
  assert (Hsite : In (EvPublish (SiteChannel j) topic payload retain' o) (site_events j new)).
  { apply List.filter_In. split; [exact Hin|]. cbn [is_site]. apply Nat.eqb_refl. }
  destruct (Hstep j) as [[Hs _]|[e [[entry [v [o' [Hv [_ [_ He]]]]]] [Hs _]]]].
  - rewrite Hs in Hsite. destruct Hsite.
  - rewrite Hs in Hsite. destruct Hsite as [E|[]]. rewrite He in E.
    injection E as _ <- _ _.
    pose proof (round_values_numbers r j v Hv) as Hnum.
    pose proof (channel_payload_ok j v Hnum) as Hok.
    exists (channel_payload j v). split; [reflexivity|]. split; [exact Hok|].
    unfold payload_ok in Hok. split.
    + intros ->. exact Hok.
    + intros Hj. apply Nat.eqb_neq in Hj. rewrite Hj in Hok.
      destruct (channel_payload j v) as [z|f|s]; [left; eauto | right; eauto | discriminate].
Qed.

(* ===================================================================== *)
(** * The end of the loop: [stop] and [cleanup] *)
(* ===================================================================== *)

Lemma cleanup_run (base : str) (st : State) :
  cleanup base st = (Ok tt, cleaned base st).
Proof.
  unfold cleanup.
  unfold mbind at 1, M_bind, bind at 1. rewrite try_pass_publish.
  unfold mbind at 1, bind at 1. rewrite try_pass_close_tn.
  unfold cleaned, cleanup_events, close_events, closed, status_event.
  cbn [tn with_pubs with_trace].
  destruct (tn st) as [h|] eqn:Htn;
    unfold mbind, bind, try_pass, try_except, log, emit, modify, ret;
    f_equal; run_state; exact Htn.
Qed.

(** X9: [cleanup] is best effort: whatever the calls of [publish] and
    [close] do, it returns, after it has published ["offline"] on the
    status topic, closed the handle it holds, if any, stopped the network
    loop of the bus client and logged that it is done, in this order.  It
    leaves the cache, the handle and the run flag as they are. *)
Theorem cleanup_best_effort (base : str) (st : State) :
  exists st',
    cleanup base st = (Ok tt, st')
    /\ w_trace st' =
         w_trace st
         ++ [EvPublish SiteStatus (MQTT_STATUS base) (PVal (VStr (lit "offline"))) true
               (List.hd PubOk (w_pubs st))]
         ++ match tn st with
            | Some h => [EvClose h]
            | None => []
            end
         ++ [EvLoopStop; EvLog INFO LogCleanupDone]
    /\ last_values st' = last_values st
    /\ tn st' = tn st
    /\ running st' = running st.
Proof.
  exists (cleaned base st). split; [apply cleanup_run|].
  repeat split; reflexivity.
Qed.

Section Loop.

Variable channel_map : IntDict Entry.
Variable MQTT_BASE : str.
Variable FLOAT_EPS : float.
Variable MQTT_RETAIN : bool.

(** With the run flag down the loop is over: what is left is [cleanup]. *)
Lemma run_loop_stopped (script : list LoopInput) (st : State) :
  running st = false ->
  run_loop channel_map MQTT_BASE FLOAT_EPS MQTT_RETAIN script st = cleanup MQTT_BASE st.
Proof. intros H. destruct script; cbn [run_loop]; rewrite H; reflexivity. Qed.

Lemma run_loop_signal (script : list LoopInput) (st : State) :
  running st = true ->
  run_loop channel_map MQTT_BASE FLOAT_EPS MQTT_RETAIN (Signal :: script) st
  = (Ok tt, cleaned MQTT_BASE (stopped st)).
Proof.
  intros H. cbn [run_loop]. rewrite H.
  unfold stop, mbind, M_bind, bind, log, emit, modify. fold (stopped st).
  rewrite run_loop_stopped by reflexivity. apply cleanup_run.
Qed.

Lemma run_loop_read (r : ReadOutcome) (script : list LoopInput) (st : State) :
  running st = true ->
  run_loop channel_map MQTT_BASE FLOAT_EPS MQTT_RETAIN (Read r :: script) st
  = match loop_body channel_map MQTT_BASE FLOAT_EPS MQTT_RETAIN r st with
    | (Ok _, st1) => run_loop channel_map MQTT_BASE FLOAT_EPS MQTT_RETAIN script st1
    | (Raise e, st1) => (Raise e, st1)
    | (Pending, st1) => (Pending, st1)
    end.
Proof. intros H. cbn [run_loop]. rewrite H. reflexivity. Qed.

(** The [except] block leaves the run flag alone. *)
Lemma reconnect_running (st : State) :
  running (snd (reconnect MQTT_BASE st)) = running st.
Proof.
  unfold reconnect.
  unfold mbind at 1, M_bind, bind at 1. unfold log at 1, emit, modify.
  unfold mbind at 1, bind at 1. rewrite try_pass_close_tn.
  unfold mbind at 1, bind at 1. rewrite try_pass_publish.
  unfold mbind at 1, bind at 1. unfold sleep, emit, modify.
  unfold mbind at 1, bind at 1.
  match goal with
  | |- context [connect_telnet_with_backoff ?s] => set (st2 := s)
  end.
  assert (H2 : running st2 = running st).
  { subst st2. cbn [running with_trace with_pubs]. unfold closed.
    destruct (tn _); reflexivity. }
  clearbody st2.
  destruct (conn_script_cases (w_conns st2)) as [[n [rest E]]|E].
  - rewrite (connect_accepted st2 n rest E).
    unfold mbind at 1, bind at 1. unfold modify. rewrite try_pass_publish.
    exact H2.
  - rewrite (connect_refused st2 _ E). exact H2.
Qed.

Lemma loop_body_running (r : ReadOutcome) (st : State) :
  running (snd (loop_body channel_map MQTT_BASE FLOAT_EPS MQTT_RETAIN r st)) = running st.
Proof.
  destruct (read_and_publish_any channel_map MQTT_BASE FLOAT_EPS MQTT_RETAIN r st)
    as [new [st1 [res [Hrun [_ [_ [[Hr _] _]]]]]]].
  unfold loop_body, try_except. rewrite Hrun.
  destruct res as [[]|e|]; [exact Hr | | exact Hr].
  rewrite reconnect_running. exact Hr.
Qed.

(** The loop never ends in an exception, and it returns only from
    [cleanup], with the run flag down. *)
Lemma run_loop_any (script : list LoopInput) :
  forall st : State,
    exists res st',
      run_loop channel_map MQTT_BASE FLOAT_EPS MQTT_RETAIN script st = (res, st')
      /\ (res = Ok tt \/ res = Pending)
      /\ (res = Ok tt ->
          running st' = false
          /\ (running st = false \/ In Signal script)
          /\ exists before, w_trace st' = before ++ [EvLoopStop; EvLog INFO LogCleanupDone]).
Proof.
  assert (Hdown : forall script st,
    running st = false ->
    exists res st',
      run_loop channel_map MQTT_BASE FLOAT_EPS MQTT_RETAIN script st = (res, st')
      /\ (res = Ok tt \/ res = Pending)
      /\ (res = Ok tt ->
          running st' = false
          /\ (running st = false \/ In Signal script)
          /\ exists before, w_trace st' = before ++ [EvLoopStop; EvLog INFO LogCleanupDone])).
  { intros script' st Hr. rewrite run_loop_stopped, cleanup_run by exact Hr.
    exists (Ok tt), (cleaned MQTT_BASE st). split; [reflexivity|].
    split; [left; reflexivity|]. intros _.
    split; [exact Hr|]. split; [left; exact Hr|].
    exists (w_trace st ++ [status_event MQTT_BASE "offline" (List.hd PubOk (w_pubs st))]
            ++ close_events st).
    cbn [cleaned w_trace]. unfold cleanup_events. rewrite <- !app_assoc. reflexivity. }
  assert (Hflag : forall st, running st = true \/ running st = false).
  { intros st. destruct (running st); [left | right]; reflexivity. }
  induction script as [|input script IH]; intros st.
  - destruct (Hflag st) as [Hr|Hr]; [|apply Hdown; exact Hr].
    exists Pending, st. cbn [run_loop]. rewrite Hr.
    split; [reflexivity|]. split; [right; reflexivity|]. discriminate.
  - destruct (Hflag st) as [Hr|Hr]; [|apply Hdown; exact Hr].
    destruct input as [|r].
    + rewrite run_loop_signal by exact Hr.
      exists (Ok tt), (cleaned MQTT_BASE (stopped st)). split; [reflexivity|].
      split; [left; reflexivity|]. intros _.
      split; [reflexivity|]. split; [right; left; reflexivity|].
      exists (w_trace (stopped st)
              ++ [status_event MQTT_BASE "offline" (List.hd PubOk (w_pubs (stopped st)))]
              ++ close_events (stopped st)).
      cbn [cleaned w_trace]. unfold cleanup_events. rewrite <- !app_assoc. reflexivity.
    + rewrite run_loop_read by exact Hr.
      pose proof (loop_body_running r st) as Hrun.
      destruct (loop_body_any channel_map MQTT_BASE FLOAT_EPS MQTT_RETAIN r st)
        as [new [st1 [res [Hbody [Hres _]]]]].
      rewrite Hbody in *. cbn [snd] in Hrun.
      destruct Hres as [-> | ->].
      * destruct (IH st1) as [res' [st' [Hloop [Hres' Hok]]]].
        exists res', st'. split; [exact Hloop|]. split; [exact Hres'|].
        intros E. destruct (Hok E) as [Hdn [Hsig Htr]].
        split; [exact Hdn|]. split; [|exact Htr].
        right. right. destruct Hsig as [Hsig|Hsig]; [congruence | exact Hsig].
      * exists Pending, st1. split; [reflexivity|]. split; [right; reflexivity|].
        discriminate.
Qed.

(** Whatever holds of the cache and is kept by every round of the loop
    holds after the loop. *)
Lemma run_loop_cache (Inv : gmap nat PyVal -> Prop) :
  (forall r st, Inv (last_values st) ->
     Inv (last_values (snd (loop_body channel_map MQTT_BASE FLOAT_EPS MQTT_RETAIN r st)))) ->
  forall script st,
    Inv (last_values st) ->
    Inv (last_values (snd (run_loop channel_map MQTT_BASE FLOAT_EPS MQTT_RETAIN script st))).
Proof.
  intros Hbody. induction script as [|input script IH]; intros st Hinv.
  - destruct (running st) eqn:Hr.
    + cbn [run_loop]. rewrite Hr. exact Hinv.
    + rewrite run_loop_stopped, cleanup_run by exact Hr. exact Hinv.
  - destruct (running st) eqn:Hr;
      [|rewrite run_loop_stopped, cleanup_run by exact Hr; exact Hinv].
    destruct input as [|r].
    + rewrite run_loop_signal by exact Hr. exact Hinv.
    + rewrite run_loop_read by exact Hr.
      specialize (Hbody r st Hinv).
      destruct (loop_body channel_map MQTT_BASE FLOAT_EPS MQTT_RETAIN r st)
        as [[[]|e|] st1]; cbn [snd] in *; [apply IH; exact Hbody | exact Hbody | exact Hbody].
Qed.

Lemma loop_body_cache_ok (r : ReadOutcome) (st : State) :
  cache_ok channel_map (last_values st) ->
  cache_ok channel_map
    (last_values (snd (loop_body channel_map MQTT_BASE FLOAT_EPS MQTT_RETAIN r st))).
Proof.
  intros Hok.
  destruct (loop_body_sound channel_map MQTT_BASE FLOAT_EPS MQTT_RETAIN r st)
    as [new [st' [res [Hrun [_ Hstep]]]]].
  rewrite Hrun. cbn [snd]. intros j p Hp.
  destruct (Hstep j) as [[_ Hk]|[e [[entry [v [o [Hv [Hl [_ He]]]]]] [_ Hk]]]].
  - apply Hok. rewrite <- Hk. exact Hp.
  - destruct Hk as [Hk|[topic [payload [o' [He' [_ Hk]]]]]].
    + apply Hok. rewrite <- Hk. exact Hp.
    + rewrite He in He'. injection He' as _ <- _.
      rewrite Hk in Hp. injection Hp as <-.
      split; [rewrite Hl; eexists; reflexivity|].
      apply channel_payload_ok. apply (round_values_numbers r j v Hv).
Qed.

Lemma loop_body_cache_keeps (j : nat) (r : ReadOutcome) (st : State) :
  is_Some (last_values st !! j) ->
  is_Some (last_values
             (snd (loop_body channel_map MQTT_BASE FLOAT_EPS MQTT_RETAIN r st)) !! j).
Proof.
  intros Hj.
  destruct (loop_body_sound channel_map MQTT_BASE FLOAT_EPS MQTT_RETAIN r st)
    as [new [st' [res [Hrun [_ Hstep]]]]].
  rewrite Hrun. cbn [snd].
  destruct (Hstep j) as [[_ Hk]|[e [_ [_ [Hk|[topic [payload [o' [_ [_ Hk]]]]]]]]]];
    rewrite Hk; [exact Hj | exact Hj | eexists; reflexivity].
Qed.

End Loop.

(** X10: the loop does not end in an exception: over any inputs it ends
    in [cleanup], or it is still waiting, for the next input or for the
    telemetry source to accept a connection.  It ends only with the run
    flag down, which takes a stop signal, and the last things it does are
    to stop the network loop of the bus client and to log that cleanup is
    done. *)
Theorem run_loop_ends_in_cleanup channel_map base eps retain
    (script : list LoopInput) (st : State) :
  exists res st',
    run_loop channel_map base eps retain script st = (res, st')
    /\ (res = Ok tt \/ res = Pending)
    /\ (res = Ok tt ->
        running st' = false
        /\ (running st = false \/ In Signal script)
        /\ exists before, w_trace st' = before ++ [EvLoopStop; EvLog INFO LogCleanupDone]).
Proof. apply run_loop_any. Qed.


(** X12: the cache stays well formed over the whole loop: it holds
    channels of the table only, on channel 0 a label of [ZK_STATUS_MAP]
    and on any other channel a number, and an index that it holds once it
    holds for good. *)
Theorem cache_stays_well_formed channel_map base eps retain
    (script : list LoopInput) (st : State) :
  cache_ok channel_map (last_values st) ->
  cache_ok channel_map
    (last_values (snd (run_loop channel_map base eps retain script st)))
  /\ forall j,
       is_Some (last_values st !! j) ->
       is_Some (last_values (snd (run_loop channel_map base eps retain script st)) !! j).
Proof.
  intros Hok. split.
  - apply (run_loop_cache channel_map base eps retain (cache_ok channel_map));
      [apply loop_body_cache_ok | exact Hok].
  - intros j.
    apply (run_loop_cache channel_map base eps retain (fun c => is_Some (c !! j))).
    apply loop_body_cache_keeps.
Qed.

Lemma cache_stays_well_formed_witness :
  cache_ok example_channel_map
    (last_values
       (snd (run_loop example_channel_map (lit "nano_pk") f_0_001 true
               [Read (ReadData (lit "pm 3 22.5")); Read ReadRaises; Signal]
               Bridge_running))).
Proof.
  apply (cache_stays_well_formed example_channel_map (lit "nano_pk") f_0_001 true).
  intros j p H. exfalso. exact (lookup_empty_Some (M := gmap nat) j p H).
Defined.


(* ===================================================================== *)
(** * Discovery that fails, and the start of the bridge *)
(* ===================================================================== *)

Lemma publishes_of_app (a b : list Event) :
  publishes_of (a ++ b) = publishes_of a ++ publishes_of b.
Proof. apply omap_app. Qed.

Lemma attempts_of_app (a b : list Event) :
  attempts_of (a ++ b) = attempts_of a ++ attempts_of b.
Proof. apply omap_app. Qed.

(** The sensor loop of [send_discovery] up to a call of [publish] that
    raises: the descriptors before it and its own are published, and the
    loop ends there. *)
Lemma send_sensors_raises (base : str) (items : IntDict Entry) :
  forall (pre post : list PubOutcome) (st : State),
    w_pubs st = pre ++ PubRaises :: post ->
    no_raise pre ->
    (length pre < length items)%nat ->
    exists new st',
      send_sensors base items st = (Raise PublishError, st')
      /\ w_trace st' = w_trace st ++ new
      /\ publishes_of new = take (S (length pre)) (List.map (sensor_message base) items)
      /\ attempts_of new = [].
Proof.
  induction items as [|[idx entry] items IH]; intros pre post st Hp Hnr Hlen;
    [simpl in Hlen; lia|].
  cbn [send_sensors]. unfold mbind, M_bind, bind.
  destruct pre as [|o pre].
  - unfold publish. rewrite Hp. cbn [List.hd List.tl app].
    eexists. eexists. split; [reflexivity|].
    cbn [w_trace with_pubs with_trace]. split; [reflexivity|].
    split; reflexivity.
  - apply Forall_cons in Hnr as [Ho Hnr].
    rewrite publish_returns by (rewrite Hp; exact Ho).
    unfold log, emit, modify.
    match goal with
    | |- context [send_sensors base items ?s] => set (st1 := s)
    end.
    destruct (IH pre post st1) as [new [st' [Hrun [Htr [Hpub Hatt]]]]].
    + subst st1. cbn [w_pubs with_trace with_pubs]. rewrite Hp. reflexivity.
    + exact Hnr.
    + cbn [length] in Hlen. lia.
    + exists ([EvPublish SiteDiscovery (sensor_config_topic entry)
                 (PJson (sensor_payload base idx entry)) true (List.hd PubOk (w_pubs st));
               EvLog INFO (LogDiscoverySent (entry_label entry))] ++ new), st'.
      split; [exact Hrun|].
      split.
      { rewrite Htr. subst st1. cbn [w_trace with_trace with_pubs].
        rewrite <- !app_assoc. reflexivity. }
      split.
      { rewrite publishes_of_app, Hpub. reflexivity. }
      rewrite attempts_of_app, Hatt. reflexivity.
Qed.

(** The sensor loop when none of its calls of [publish] raises. *)
Lemma send_sensors_returns (base : str) (items : IntDict Entry) :
  forall (pre rest : list PubOutcome) (st : State),
    w_pubs st = pre ++ rest ->
    no_raise pre ->
    length pre = length items ->
    exists new st',
      send_sensors base items st = (Ok tt, st')
      /\ w_trace st' = w_trace st ++ new
      /\ w_pubs st' = rest
      /\ publishes_of new = List.map (sensor_message base) items
      /\ attempts_of new = [].
Proof.
  induction items as [|[idx entry] items IH]; intros pre rest st Hp Hnr Hlen.
  - destruct pre; [|discriminate Hlen].
    exists [], st. split; [reflexivity|]. split; [symmetry; apply app_nil_r|].
    split; [exact Hp|]. split; reflexivity.
  - destruct pre as [|o pre]; [discriminate Hlen|].
    apply Forall_cons in Hnr as [Ho Hnr].
    cbn [send_sensors]. unfold mbind, M_bind, bind.
    rewrite publish_returns by (rewrite Hp; exact Ho).
    unfold log, emit, modify.
    match goal with
    | |- context [send_sensors base items ?s] => set (st1 := s)
    end.
    destruct (IH pre rest st1) as [new [st' [Hrun [Htr [Hrest [Hpub Hatt]]]]]].
    + subst st1. cbn [w_pubs with_trace with_pubs]. rewrite Hp. reflexivity.
    + exact Hnr.
    + cbn [length] in Hlen. lia.
    + exists ([EvPublish SiteDiscovery (sensor_config_topic entry)
                 (PJson (sensor_payload base idx entry)) true (List.hd PubOk (w_pubs st));
               EvLog INFO (LogDiscoverySent (entry_label entry))] ++ new), st'.
      split; [exact Hrun|].
      split.
      { rewrite Htr. subst st1. cbn [w_trace with_trace with_pubs].
        rewrite <- !app_assoc. reflexivity. }
      split; [exact Hrest|].
      split.
      { rewrite publishes_of_app, Hpub. reflexivity. }
      rewrite attempts_of_app, Hatt. reflexivity.
Qed.

(** [send_discovery] when one of its calls of [publish] raises. *)
Lemma send_discovery_raises (channel_map : IntDict Entry) (base : str)
    (pre post : list PubOutcome) (st : State) :
  w_pubs st = pre ++ PubRaises :: post ->
  no_raise pre ->
  (length pre <= length channel_map)%nat ->
  exists new st',
    send_discovery channel_map base st = (Raise PublishError, st')
    /\ w_trace st' = w_trace st ++ new
    /\ publishes_of new = take (S (length pre)) (descriptors channel_map base)
    /\ attempts_of new = [].
Proof.
  intros Hp Hnr Hlen. unfold send_discovery, descriptors.
  destruct (Nat.eq_dec (length pre) (length channel_map)) as [Heq|Hne].
  - destruct (send_sensors_returns base channel_map pre (PubRaises :: post) st Hp Hnr Heq)
      as [new [st1 [Hrun [Htr [Hrest [Hpub Hatt]]]]]].
    unfold mbind at 1, M_bind, bind at 1. rewrite Hrun.
    unfold mbind, bind, publish. rewrite Hrest. cbn [List.hd List.tl].
    eexists. eexists. split; [reflexivity|].
    cbn [w_trace with_pubs with_trace]. rewrite Htr, <- app_assoc.
    split; [reflexivity|].
    split.
    + rewrite publishes_of_app, Hpub.
      rewrite take_ge; [reflexivity|].
      rewrite length_app, length_map. cbn [length]. lia.
    + rewrite attempts_of_app, Hatt. reflexivity.
  - destruct (send_sensors_raises base channel_map pre post st Hp Hnr)
      as [new [st1 [Hrun [Htr [Hpub Hatt]]]]]; [lia|].
    unfold mbind at 1, M_bind, bind at 1. rewrite Hrun.
    exists new, st1. split; [reflexivity|]. split; [exact Htr|].
    split; [|exact Hatt].
    rewrite Hpub. rewrite take_app_le; [reflexivity|].
    rewrite length_map. lia.
Qed.

Lemma sensor_message_topic (base : str) (item : Z * Entry) :
  snd (fst (fst (sensor_message base item))) = sensor_config_topic (snd item).
Proof. reflexivity. Qed.

Lemma connectivity_message_topic (base : str) :
  snd (fst (fst (connectivity_message base))) = connectivity_config_topic.
Proof. reflexivity. Qed.

Lemma events_since_app (st st' : State) (new : list Event) :
  w_trace st' = w_trace st ++ new -> events_since st st' = new.
Proof. intros H. unfold events_since. rewrite H. apply drop_app_length. Qed.

(** X13: a call of [publish] that raises ends [send_discovery] at once:
    the exception leaves the function, the descriptors before the call
    and the one of the call itself are the only ones published, and the
    descriptors after it, among them the connectivity sensor, are not
    announced. *)
Theorem send_discovery_stops_at_failure (channel_map : IntDict Entry) (base : str)
    (pre post : list PubOutcome) (st : State) :
  w_pubs st = pre ++ PubRaises :: post ->
  no_raise pre ->
  (length pre <= length channel_map)%nat ->
  exists st',
    send_discovery channel_map base st = (Raise PublishError, st')
    /\ publishes_of (events_since st st')
       = take (S (length pre)) (descriptors channel_map base)
    /\ ((length pre < length channel_map)%nat ->
        ~ In (connectivity_message base) (publishes_of (events_since st st'))).
Proof.
  intros Hp Hnr Hlen.
  destruct (send_discovery_raises channel_map base pre post st Hp Hnr Hlen)
    as [new [st' [Hrun [Htr [Hpub _]]]]].
  exists st'. split; [exact Hrun|].
  rewrite (events_since_app st st' new Htr). split; [exact Hpub|].
  intros Hlt Hin. rewrite Hpub in Hin. unfold descriptors in Hin.
  rewrite take_app_le in Hin by (rewrite length_map; lia).
  apply list_elem_of_In, elem_of_take in Hin as [i [Hi _]].
  change (List.map (sensor_message base) channel_map)
    with (sensor_message base <$> channel_map) in Hi.
  rewrite list_lookup_fmap in Hi.
  apply fmap_Some in Hi as [[idx entry] [_ Hi]].
  apply (f_equal (fun m => snd (fst (fst m)))) in Hi. cbv beta in Hi.
  rewrite sensor_message_topic, connectivity_message_topic in Hi.
  symmetry in Hi. revert Hi. apply sensor_config_topic_apart.
Qed.

Lemma send_discovery_stops_at_failure_witness :
  exists st',
    send_discovery example_channel_map (lit "nano_pk") failing_bus
    = (Raise PublishError, st')
    /\ publishes_of (events_since failing_bus st')
       = take 2 (descriptors example_channel_map (lit "nano_pk")).
Proof.
  destruct (send_discovery_stops_at_failure example_channel_map (lit "nano_pk")
              [PubOk] [] failing_bus) as [st' [Hrun [Hpub _]]].
  - reflexivity.
  - repeat constructor. discriminate.
  - vm_compute. lia.
  - exists st'. split; [exact Hrun | exact Hpub].
Defined.

Lemma PubOutcome_raises (o : PubOutcome) : o = PubRaises \/ o <> PubRaises.
Proof. destruct o; [right; discriminate | right; discriminate | left; reflexivity]. Qed.

(** [send_discovery] whatever the calls of [publish] do: it returns or
    it raises the exception of [publish], and nothing happens in it but
    the publication of descriptors and their log entries. *)
Lemma send_sensors_any (base : str) (items : IntDict Entry) :
  forall st : State,
    exists res st' new,
      send_sensors base items st = (res, st')
      /\ (res = Ok tt \/ res = Raise PublishError)
      /\ w_trace st' = w_trace st ++ new
      /\ Forall (fun e => is_discovery_event e = true) new
      /\ tn st' = tn st /\ running st' = running st.
Proof.
  induction items as [|[idx entry] items IH]; intros st.
  - exists (Ok tt), st, []. split; [reflexivity|]. split; [left; reflexivity|].
    split; [symmetry; apply app_nil_r|]. split; [constructor|]. split; reflexivity.
  - cbn [send_sensors]. unfold mbind, M_bind, bind.
    destruct (PubOutcome_raises (List.hd PubOk (w_pubs st))) as [Hhd|Hhd].
    + unfold publish. rewrite Hhd.
      eexists. eexists. exists [EvPublish SiteDiscovery (sensor_config_topic entry)
                                  (PJson (sensor_payload base idx entry)) true PubRaises].
      split; [reflexivity|]. split; [right; reflexivity|].
      split; [reflexivity|]. split; [repeat constructor|]. split; reflexivity.
    + rewrite publish_returns by exact Hhd.
      unfold log, emit, modify.
      match goal with
      | |- context [send_sensors base items ?s] => set (st1 := s)
      end.
      destruct (IH st1) as [res [st' [new [Hrun [Hres [Htr [Hev [Htn Hrn]]]]]]]].
      exists res, st',
        ([EvPublish SiteDiscovery (sensor_config_topic entry)
            (PJson (sensor_payload base idx entry)) true (List.hd PubOk (w_pubs st));
          EvLog INFO (LogDiscoverySent (entry_label entry))] ++ new).
      split; [exact Hrun|]. split; [exact Hres|].
      split.
      { rewrite Htr. subst st1. cbn [w_trace with_trace with_pubs].
        rewrite <- !app_assoc. reflexivity. }
      split; [repeat constructor; exact Hev|].
      split; [rewrite Htn; reflexivity | rewrite Hrn; reflexivity].
Qed.

Lemma send_discovery_any (channel_map : IntDict Entry) (base : str) (st : State) :
  exists res st' new,
    send_discovery channel_map base st = (res, st')
    /\ (res = Ok tt \/ res = Raise PublishError)
    /\ w_trace st' = w_trace st ++ new
    /\ Forall (fun e => is_discovery_event e = true) new
    /\ tn st' = tn st /\ running st' = running st.
Proof.
  unfold send_discovery.
  destruct (send_sensors_any base channel_map st)
    as [res [st1 [new [Hrun [Hres [Htr [Hev [Htn Hrn]]]]]]]].
  unfold mbind at 1, M_bind, bind at 1. rewrite Hrun.
  destruct Hres as [-> | ->].
  - unfold mbind, bind.
    destruct (PubOutcome_raises (List.hd PubOk (w_pubs st1))) as [Hhd|Hhd].
    + unfold publish. rewrite Hhd.
      eexists. eexists.
      exists (new ++ [EvPublish SiteDiscovery connectivity_config_topic
                        (PJson (connectivity_payload base)) true PubRaises]).
      split; [reflexivity|]. split; [right; reflexivity|].
      cbn [w_trace tn running with_trace with_pubs].
      split; [rewrite Htr, <- !app_assoc; reflexivity|].
      split; [apply Forall_app; split; [exact Hev | repeat constructor]|].
      split; [exact Htn | exact Hrn].
    + rewrite publish_returns by exact Hhd.
      unfold log, emit, modify.
      eexists. eexists.
      exists (new ++ [EvPublish SiteDiscovery connectivity_config_topic
                        (PJson (connectivity_payload base)) true
                        (List.hd PubOk (w_pubs st1));
                      EvLog INFO LogConnectivitySent]).
      split; [reflexivity|]. split; [left; reflexivity|].
      cbn [w_trace tn running with_trace with_pubs].
      split; [rewrite Htr, <- !app_assoc; reflexivity|].
      split; [apply Forall_app; split; [exact Hev | repeat constructor]|].
      split; [exact Htn | exact Hrn].
  - exists (Raise PublishError), st1, new.
    split; [reflexivity|]. split; [right; reflexivity|].
    split; [exact Htr|]. split; [exact Hev|]. split; [exact Htn | exact Hrn].
Qed.

(** X14: [start], once the bus client is connected, ends in one of three
    ways: it returns from [cleanup] with the run flag down; it is still
    waiting; or a call of [publish] in discovery raised, and then the
    exception leaves [start] before any connection to the telemetry
    source is attempted and without [cleanup]: nothing has happened but
    discovery.  A call of [publish] that raises in discovery always ends
    [start] this way. *)
Theorem start_outcomes channel_map base eps retain
    (script : list LoopInput) (st : State) :
  (exists res st',
     start_connected channel_map base eps retain script st = (res, st')
     /\ (res = Ok tt \/ res = Pending \/ res = Raise PublishError)
     /\ (res = Ok tt -> running st' = false)
     /\ (res = Raise PublishError ->
         Forall (fun e => is_discovery_event e = true) (events_since st st')
         /\ attempts_of (events_since st st') = []
         /\ tn st' = tn st))
  /\ (forall pre post,
        w_pubs st = pre ++ PubRaises :: post ->
        no_raise pre ->
        (length pre <= length channel_map)%nat ->
        fst (start_connected channel_map base eps retain script st)
        = Raise PublishError).
Proof.
  split.
  - unfold start_connected.
    destruct (send_discovery_any channel_map base st)
      as [res1 [st1 [new [Hrun [Hres [Htr [Hev [Htn _]]]]]]]].
    unfold mbind at 1, M_bind, bind at 1. rewrite Hrun.
    destruct Hres as [-> | ->].
    + unfold mbind at 1, bind at 1.
      destruct (conn_script_cases (w_conns st1)) as [[n [rest E]]|E].
      * rewrite (connect_accepted st1 n rest E).
        unfold mbind, bind, modify.
        match goal with
        | |- context [run_loop channel_map base eps retain script ?s] => set (st2 := s)
        end.
        destruct (run_loop_any channel_map base eps retain script st2)
          as [res [st' [Hloop [Hres Hok]]]].
        exists res, st'. split; [exact Hloop|].
        split; [destruct Hres as [-> | ->]; tauto|].
        split; [intros H; apply (Hok H)|].
        intros H. destruct Hres as [-> | ->]; discriminate H.
      * rewrite (connect_refused st1 _ E).
        eexists. eexists. split; [reflexivity|].
        split; [right; left; reflexivity|].
        split; discriminate.
    + exists (Raise PublishError), st1. split; [reflexivity|].
      split; [right; right; reflexivity|].
      split; [discriminate|]. intros _.
      rewrite (events_since_app st st1 new Htr).
      split; [exact Hev|]. split; [|exact Htn].
      clear Htr. induction Hev as [|e new He Hev IH]; [reflexivity|].
      destruct e as [site topic payload retain' o| | | | |lvl msg|]; try discriminate He;
        exact IH.
  - intros pre post Hp Hnr Hlen. unfold start_connected.
    destruct (send_discovery_raises channel_map base pre post st Hp Hnr Hlen)
      as [new [st' [Hrun _]]].
    unfold mbind at 1, M_bind, bind at 1. rewrite Hrun. reflexivity.
Qed.

Lemma start_outcomes_witness :
  fst (start_connected example_channel_map (lit "nano_pk") f_0_001 true
         [Read ReadEmpty] failing_bus)
  = Raise PublishError.
Proof.
  apply (proj2 (start_outcomes example_channel_map (lit "nano_pk") f_0_001 true
                  [Read ReadEmpty] failing_bus) [PubOk] []).
  - reflexivity.
  - repeat constructor. discriminate.
  - vm_compute. lia.
Defined.

(* ===================================================================== *)
(** * Status codes and the change filter *)
(* ===================================================================== *)

Lemma status_code_cases (a : Z) :
  0 <= a <= 12 ->
  a = 0 \/ a = 1 \/ a = 2 \/ a = 3 \/ a = 4 \/ a = 5 \/ a = 6 \/ a = 7 \/ a = 8
  \/ a = 9 \/ a = 10 \/ a = 11 \/ a = 12.
Proof. lia. Qed.

(** Two codes of the table have the same label only when they are the
    same code. *)
Lemma status_labels_compare (eps : float) (a b : Z) :
  0 <= a <= 12 -> 0 <= b <= 12 ->
  almost_equal eps (channel_payload 0 (VInt a)) (channel_payload 0 (VInt b)) = (a =? b).
Proof.
  intros Ha Hb.
  apply status_code_cases in Ha. apply status_code_cases in Hb.
  repeat (destruct Ha as [Ha|Ha]); subst a;
    repeat (destruct Hb as [Hb|Hb]); subst b; vm_compute; reflexivity.
Qed.

(** A code without a label of its own is shown as code 0 is. *)
Lemma status_label_shared (a : Z) :
  ~ has_own_label a -> channel_payload 0 (VInt a) = channel_payload 0 (VInt 0).
Proof.
  intros Ha. unfold has_own_label in Ha.
  destruct (Z.eq_dec a 0) as [->|Hz]; [reflexivity|].
  unfold channel_payload. cbn [Nat.eqb]. f_equal. unfold dict_get.
  rewrite dict_find_no_match; [reflexivity|].
  intros k v Hin. apply ZK_STATUS_MAP_key_range in Hin.
  cbn [key_matches]. apply Z.eqb_neq. lia.
Qed.

(** X15: on channel 0 the change filter holds a new status code back
    exactly when it is the cached code or when neither code has a label
    of its own: each of the codes 1 to 12 has its own label, so a change
    to or from one of them is published, while code 0 and all codes
    outside the table share the label ["Unbekannt"], so a change among
    them is not. *)
Theorem status_change_published (eps : float) (a b : Z) :
  almost_equal eps (channel_payload 0 (VInt a)) (channel_payload 0 (VInt b)) = true
  <-> a = b \/ (~ has_own_label a /\ ~ has_own_label b).
Proof.
  assert (Hzero : 0 <= 0 <= 12) by lia.
  assert (Hown : forall c, has_own_label c -> 0 <= c <= 12)
    by (unfold has_own_label; lia).
  destruct (decide (has_own_label a)) as [Ha|Ha];
    destruct (decide (has_own_label b)) as [Hb|Hb].
  - rewrite (status_labels_compare eps a b (Hown a Ha) (Hown b Hb)).
    rewrite Z.eqb_eq. tauto.
  - rewrite (status_label_shared b Hb).
    rewrite (status_labels_compare eps a 0 (Hown a Ha) Hzero).
    rewrite Z.eqb_eq. unfold has_own_label in *. split; [lia|].
    intros [H|[H _]]; [lia | contradiction].
  - rewrite (status_label_shared a Ha).
    rewrite (status_labels_compare eps 0 b Hzero (Hown b Hb)).
    rewrite Z.eqb_eq. unfold has_own_label in *. split; [lia|].
    intros [H|[_ H]]; [lia | contradiction].
  - rewrite (status_label_shared a Ha), (status_label_shared b Hb).
    rewrite (status_labels_compare eps 0 0 Hzero Hzero).
    split; [intros _; right; split; assumption | reflexivity].
Qed.

(* ===================================================================== *)
(** * The decoder never yields a NaN *)
(* ===================================================================== *)














(* ===================================================================== *)
(** * Retain flags *)
(* ===================================================================== *)

Lemma extends_refl (P : Event -> bool) (st : State) : extends P st st.
Proof. exists []. split; [symmetry; apply app_nil_r | constructor]. Qed.

Lemma extends_trans (P : Event -> bool) (st1 st2 st3 : State) :
  extends P st1 st2 -> extends P st2 st3 -> extends P st1 st3.
Proof.
  intros [n1 [H1 F1]] [n2 [H2 F2]]. exists (n1 ++ n2).
  split; [rewrite H2, H1; symmetry; apply app_assoc | apply Forall_app; split; assumption].
Qed.

Lemma extends_bind {A B} (P : Event -> bool) (m : M A) (k : A -> M B) (st : State) :
  extends P st (snd (m st)) ->
  (forall a st1, extends P st1 (snd (k a st1))) ->
  extends P st (snd (bind m k st)).
Proof.
  intros Hm Hk. unfold bind. destruct (m st) as [[a|e|] st1]; cbn [snd] in *;
    [|exact Hm|exact Hm].
  apply (extends_trans P st st1); [exact Hm | apply Hk].
Qed.

Lemma extends_try_except {A} (P : Event -> bool) (m : M A) (h : Exn -> M A) (st : State) :
  extends P st (snd (m st)) ->
  (forall e st1, extends P st1 (snd (h e st1))) ->
  extends P st (snd (try_except m h st)).
Proof.
  intros Hm Hh. unfold try_except. destruct (m st) as [[a|e|] st1]; cbn [snd] in *;
    [exact Hm| |exact Hm].
  apply (extends_trans P st st1); [exact Hm | apply Hh].
Qed.

Lemma extends_try_pass (P : Event -> bool) (m : M unit) (st : State) :
  extends P st (snd (m st)) -> extends P st (snd (try_pass m st)).
Proof.
  intros Hm. apply extends_try_except; [exact Hm|].
  intros e st1. apply extends_refl.
Qed.

Lemma extends_emit (P : Event -> bool) (e : Event) (st : State) :
  P e = true -> extends P st (snd (emit e st)).
Proof. intros He. exists [e]. split; [reflexivity | repeat constructor; exact He]. Qed.

Lemma extends_modify (P : Event -> bool) (f : State -> State) (st : State) :
  w_trace (f st) = w_trace st -> extends P st (snd (modify f st)).
Proof.
  intros H. exists []. split; [|constructor].
  cbn [modify snd]. rewrite H. symmetry. apply app_nil_r.
Qed.

Lemma extends_publish (P : Event -> bool) site topic payload retain (st : State) :
  (forall o, P (EvPublish site topic payload retain o) = true) ->
  extends P st (snd (publish site topic payload retain st)).
Proof.
  intros He. exists [EvPublish site topic payload retain (List.hd PubOk (w_pubs st))].
  split; [|repeat constructor; apply He].
  unfold publish. destruct (List.hd PubOk (w_pubs st)); reflexivity.
Qed.

Section Retain.

Variable channel_map : IntDict Entry.
Variable MQTT_BASE : str.
Variable FLOAT_EPS : float.
Variable MQTT_RETAIN : bool.

Lemma retain_connect_loop (fuel : nat) :
  forall delay st,
    extends (retain_ok MQTT_RETAIN) st (snd (connect_loop fuel delay st)).
Proof.
  induction fuel as [|fuel IH]; intros delay st; [apply extends_refl|].
  cbn [connect_loop]. apply extends_try_except.
  - unfold mbind, M_bind, log.
    apply extends_bind; [apply extends_emit; reflexivity|]. intros _ st1.
    apply extends_bind.
    + unfold telnet_open. destruct (w_conns st1) as [|ok rest]; [apply extends_refl|].
      exists [EvConnect ok]. split; [destruct ok; reflexivity | repeat constructor].
    + intros h st2. apply extends_bind; [apply extends_emit; reflexivity|].
      intros _ st3. apply extends_refl.
  - intros _ st1. unfold mbind, M_bind, log, sleep.
    apply extends_bind; [apply extends_emit; reflexivity|]. intros _ st2.
    apply extends_bind; [apply extends_emit; reflexivity|]. intros _ st3.
    apply IH.
Qed.

Lemma retain_close_tn (st : State) :
  extends (retain_ok MQTT_RETAIN) st (snd (close_tn st)).
Proof.
  unfold close_tn. destruct (tn st) as [h|]; [|apply extends_refl].
  exists [EvClose h]. split; [|repeat constructor].
  unfold telnet_close. destruct (List.hd false (w_closes st)); reflexivity.
Qed.

Lemma retain_reconnect (st : State) :
  extends (retain_ok MQTT_RETAIN) st (snd (reconnect MQTT_BASE st)).
Proof.
  unfold reconnect, mbind, M_bind, log, sleep.
  apply extends_bind; [apply extends_emit; reflexivity|]. intros _ st1.
  apply extends_bind; [apply extends_try_pass, retain_close_tn|]. intros _ st2.
  apply extends_bind;
    [apply extends_try_pass, extends_publish; reflexivity|]. intros _ st3.
  apply extends_bind; [apply extends_emit; reflexivity|]. intros _ st4.
  apply extends_bind; [apply retain_connect_loop|]. intros h st5.
  apply extends_bind; [apply extends_modify; reflexivity|]. intros _ st6.
  apply extends_try_pass, extends_publish. reflexivity.
Qed.

Lemma retain_process_values (values : list (option PyVal)) :
  forall idx st,
    extends (retain_ok MQTT_RETAIN) st
      (snd (process_values channel_map MQTT_BASE FLOAT_EPS MQTT_RETAIN idx values st)).
Proof.
  induction values as [|val rest IH]; intros idx st; [apply extends_refl|].
  cbn [process_values]. unfold mbind, M_bind.
  apply extends_bind; [|intros _ st1; apply IH].
  rewrite publish_value_cases.
  destruct (channel_lookup channel_map idx) as [entry|]; [|apply extends_refl].
  destruct val as [v|]; [|apply extends_refl].
  cbv zeta.
  destruct (unchanged FLOAT_EPS (last_values st) idx (channel_payload idx v));
    [apply extends_refl|].
  assert (H : forall st',
            w_trace st' = w_trace st
                          ++ [value_event MQTT_BASE MQTT_RETAIN idx entry
                                (channel_payload idx v) st] ->
            extends (retain_ok MQTT_RETAIN) st st').
  { intros st' Htr. eexists. split; [exact Htr|].
    repeat constructor. unfold value_event. cbn [retain_ok]. apply eqb_reflx. }
  destruct (List.hd PubOk (w_pubs st)); apply H; reflexivity.
Qed.

Lemma retain_loop_body (r : ReadOutcome) (st : State) :
  extends (retain_ok MQTT_RETAIN) st
    (snd (loop_body channel_map MQTT_BASE FLOAT_EPS MQTT_RETAIN r st)).
Proof.
  unfold loop_body. apply extends_try_except; [|intros _ st1; apply retain_reconnect].
  destruct r as [| |text].
  - exists [EvRead]. split; [reflexivity | repeat constructor].
  - exists [EvRead]. split; [reflexivity | repeat constructor].
  - rewrite read_and_publish_line_values.
    apply (extends_trans _ st (after_read st)).
    + exists [EvRead]. split; [reflexivity | repeat constructor].
    + apply retain_process_values.
Qed.

Lemma retain_cleanup (st : State) :
  extends (retain_ok MQTT_RETAIN) st (snd (cleanup MQTT_BASE st)).
Proof.
  rewrite cleanup_run. exists (cleanup_events MQTT_BASE st).
  split; [reflexivity|].
  unfold cleanup_events, close_events. destruct (tn st); repeat constructor.
Qed.

Lemma retain_run_loop (script : list LoopInput) :
  forall st,
    extends (retain_ok MQTT_RETAIN) st
      (snd (run_loop channel_map MQTT_BASE FLOAT_EPS MQTT_RETAIN script st)).
Proof.
  induction script as [|input script IH]; intros st.
  - cbn [run_loop]. destruct (running st); [apply extends_refl | apply retain_cleanup].
  - cbn [run_loop]. destruct (running st); [|apply retain_cleanup].
    destruct input as [|r]; unfold mbind, M_bind.
    + apply extends_bind; [|intros _ st1; apply IH].
      exists [EvLog INFO LogStopSignal]. split; [reflexivity | repeat constructor].
    + apply extends_bind; [apply retain_loop_body | intros _ st1; apply IH].
Qed.

Lemma retain_send_discovery (st : State) :
  extends (retain_ok MQTT_RETAIN) st (snd (send_discovery channel_map MQTT_BASE st)).
Proof.
  destruct (send_discovery_any channel_map MQTT_BASE st)
    as [res [st' [new [Hrun [_ [Htr [Hev _]]]]]]].
  rewrite Hrun. exists new. split; [exact Htr|].
  eapply Forall_impl; [exact Hev|]. intros e He. cbv beta in *.
  destruct e as [[| |] topic [|j] [|] o| | | | |[| |] [| | | | | | |]|];
    try discriminate He; reflexivity.
Qed.

Lemma retain_start (script : list LoopInput) (st : State) :
  extends (retain_ok MQTT_RETAIN) st
    (snd (start_connected channel_map MQTT_BASE FLOAT_EPS MQTT_RETAIN script st)).
Proof.
  unfold start_connected, mbind, M_bind.
  apply extends_bind; [apply retain_send_discovery|]. intros _ st1.
  apply extends_bind; [apply retain_connect_loop|]. intros h st2.
  apply extends_bind; [apply extends_modify; reflexivity|]. intros _ st3.
  apply retain_run_loop.
Qed.

End Retain.

(** X17: the setting [MQTT_RETAIN] governs the values of the channels
    and nothing else: from discovery to [cleanup], every value of a
    channel is published with the configured retain flag, and every
    descriptor and every status message, ["online"] or ["offline"], is
    published retained whatever the setting is. *)
Theorem retain_flags channel_map base eps retain
    (script : list LoopInput) (st : State) :
  exists new,
    w_trace (snd (start_connected channel_map base eps retain script st))
    = w_trace st ++ new
    /\ forall site topic payload r o,
         In (EvPublish site topic payload r o) new ->
         r = match site with
             | SiteChannel _ => retain
             | _ => true
             end.
Proof.
  destruct (retain_start channel_map base eps retain script st) as [new [Htr Hev]].
  exists new. split; [exact Htr|].
  intros site topic payload r o Hin.
  rewrite Forall_forall in Hev. apply list_elem_of_In, Hev in Hin.
  destruct site; cbn [retain_ok] in Hin; [apply eqb_prop | |]; exact Hin.
Qed.
